(** * Quote page scripts: a shallow embedding and its properties

    The repository holds several versions of one browser script that keeps a
    list of quotes, mirrors it to [localStorage], filters and displays it,
    exports and imports it as JSON, and merges records fetched from a remote
    endpoint.  Two versions carry the storage and synchronisation logic:

    - [src/dom-manipulation/script.js] (first script of the file), embedded
      in module [ScriptJs];
    - [src/unnamed/part_002], the later version with a dedicated fetch
      function, a guarded [restoreFilter] and a deduplicating import,
      embedded in module [Part002].

    The second script of [src/dom-manipulation/script.js], which keeps its
    quotes in memory only, is embedded in module [FormScript].

    JavaScript values are modelled by the JSON values the scripts handle,
    exceptions by an error result, the page (global [quotes], storage slots,
    form controls, display) by a record threaded through a state monad. *)

From Stdlib Require Import List String Ascii Bool ZArith QArith Qround Lia.
From Stdlib Require Import DecimalString Sorted.
Import ListNotations.
Local Open Scope string_scope.
Local Open Scope list_scope.
Set Warnings "-register-all".

(** ** JavaScript values *)

(** The values that reach the scripts: what [JSON.parse] produces, and the
    strings read from the form.  Numbers are represented by integers: the
    scripts only test them for truthiness and strict equality.  An object is
    the list of its own properties, with distinct keys. *)
Inductive value : Type :=
| JNull
| JBool (b : bool)
| JNum (n : Z)
| JStr (s : string)
| JArr (items : list value)
| JObj (fields : list (string * value)).

(** The result of an expression that may be [undefined]. *)
Definition jsval : Type := option value.
Definition undefined : jsval := None.

(** Exceptions.  [Error] is [new Error(message)] thrown by a script; the
    others are raised by the platform: a property read on [null] or a call
    of something that is not a function, [JSON.parse] on malformed text, a
    rejected [fetch]. *)
Inductive exn : Type :=
| Error (message : string)
| TypeError
| SyntaxError
| NetworkError.

(** A computation that may throw. *)
Inductive result (A : Type) : Type :=
| Ok (a : A)
| Throw (e : exn).
Arguments Ok {A} a.
Arguments Throw {A} e.

Definition rbind {A B : Type} (r : result A) (f : A -> result B) : result B :=
  match r with
  | Ok a => f a
  | Throw e => Throw e
  end.

Notation "x <-- r ;; k" := (rbind r (fun x => k))
  (at level 61, r at next level, right associativity).

Fixpoint lookup_field (k : string) (fields : list (string * value)) : jsval :=
  match fields with
  | [] => undefined
  | (k', v) :: rest => if String.eqb k k' then Some v else lookup_field k rest
  end.

(** [v.k] for the property names the scripts read ([text], [category],
    [title]): a [TypeError] on [null], the property of an object, and
    [undefined] on any other value. *)
Definition get (v : value) (k : string) : result jsval :=
  match v with
  | JNull => Throw TypeError
  | JObj fields => Ok (lookup_field k fields)
  | _ => Ok undefined
  end.

(** Truthiness, as in [if (x)], [!x], [x && y], [x || y]. *)
Definition truthy (v : jsval) : bool :=
  match v with
  | None => false
  | Some JNull => false
  | Some (JBool b) => b
  | Some (JNum n) => negb (Z.eqb n 0)
  | Some (JStr s) => negb (String.eqb s "")
  | Some (JArr _) => true
  | Some (JObj _) => true
  end.

(** Strict equality [===].  Primitives compare by value.  Arrays and objects
    compare by reference; the two sides of every comparison in the scripts
    come from different nodes of parsed JSON, so two references are never
    the same. *)
Definition strict_eq (a b : jsval) : bool :=
  match a, b with
  | None, None => true
  | Some JNull, Some JNull => true
  | Some (JBool x), Some (JBool y) => Bool.eqb x y
  | Some (JNum x), Some (JNum y) => Z.eqb x y
  | Some (JStr x), Some (JStr y) => String.eqb x y
  | _, _ => false
  end.

(** Values that [===] compares by value. *)
Definition primitive (v : jsval) : bool :=
  match v with
  | Some (JArr _) => false
  | Some (JObj _) => false
  | _ => true
  end.

(** The object literal [{ text: t, category: c }].  A property holding
    [undefined] is represented by its absence: reading it gives [undefined]
    and [JSON.stringify] leaves it out. *)
Definition field (k : string) (v : jsval) : list (string * value) :=
  match v with
  | Some x => [(k, x)]
  | None => []
  end.

Definition mk_quote (text category : jsval) : value :=
  JObj (field "text" text ++ field "category" category).

(** ** Strings *)

(** Case mapping and trimming act on the ASCII range. *)
Definition lower_ascii (c : ascii) : ascii :=
  let n := nat_of_ascii c in
  if (65 <=? n)%nat && (n <=? 90)%nat then ascii_of_nat (n + 32) else c.

Definition upper_ascii (c : ascii) : ascii :=
  let n := nat_of_ascii c in
  if (97 <=? n)%nat && (n <=? 122)%nat then ascii_of_nat (n - 32) else c.

Fixpoint toLowerCase (s : string) : string :=
  match s with
  | EmptyString => EmptyString
  | String c rest => String (lower_ascii c) (toLowerCase rest)
  end.

(** [s.charAt(0).toUpperCase() + s.slice(1)] *)
Definition capitalize (s : string) : string :=
  match s with
  | EmptyString => EmptyString
  | String c rest => String (upper_ascii c) rest
  end.

Definition is_space (c : ascii) : bool :=
  let n := nat_of_ascii c in
  ((9 <=? n)%nat && (n <=? 13)%nat) || (n =? 32)%nat.

Fixpoint trimStart (s : string) : string :=
  match s with
  | EmptyString => EmptyString
  | String c rest => if is_space c then trimStart rest else s
  end.

Fixpoint trimEnd (s : string) : string :=
  match s with
  | EmptyString => EmptyString
  | String c rest =>
      match trimEnd rest with
      | EmptyString => if is_space c then EmptyString else String c EmptyString
      | rest' => String c rest'
      end
  end.

Definition trim (s : string) : string := trimEnd (trimStart s).

(** ** Arrays *)

(** [Array.prototype.some], [filter] and [map] with a callback that may
    throw; [some] stops at the first element the callback accepts. *)
Fixpoint some {A : Type} (f : A -> result bool) (l : list A) : result bool :=
  match l with
  | [] => Ok false
  | x :: rest =>
      match f x with
      | Throw e => Throw e
      | Ok true => Ok true
      | Ok false => some f rest
      end
  end.

Fixpoint filter_r {A : Type} (f : A -> result bool) (l : list A)
  : result (list A) :=
  match l with
  | [] => Ok []
  | x :: rest =>
      keep <-- f x ;;
      rest' <-- filter_r f rest ;;
      Ok (if keep then x :: rest' else rest')
  end.

Fixpoint map_r {A B : Type} (f : A -> result B) (l : list A)
  : result (list B) :=
  match l with
  | [] => Ok []
  | x :: rest =>
      y <-- f x ;;
      rest' <-- map_r f rest ;;
      Ok (y :: rest')
  end.

(** [Array.prototype.forEach] with a callback that updates local
    variables of the enclosing function, gathered in [acc], and may throw. *)
Fixpoint forEach_r {A S : Type} (f : A -> S -> result S) (l : list A) (acc : S)
  : result S :=
  match l with
  | [] => Ok acc
  | x :: rest =>
      acc' <-- f x acc ;;
      forEach_r f rest acc'
  end.

(** [[...new Set(l)]]: the first occurrence of every value, in order. *)
Fixpoint uniq {A : Type} (same : A -> A -> bool) (l : list A) : list A :=
  match l with
  | [] => []
  | x :: rest => x :: filter (fun y => negb (same x y)) (uniq same rest)
  end.

Definition set_of (l : list jsval) : list jsval := uniq strict_eq l.

(** [Array.prototype.sort()] on strings, by insertion. *)
Fixpoint insert_sorted (s : string) (l : list string) : list string :=
  match l with
  | [] => [s]
  | x :: rest => if String.leb s x then s :: l else x :: insert_sorted s rest
  end.

Definition sort (l : list string) : list string :=
  fold_right insert_sorted [] l.

(** ** The platform: JSON, form controls, the page *)

(** [JSON.stringify] and [JSON.parse] are the platform's.  The scripts rely
    on one law: parsing the text that [JSON.stringify] wrote gives the value
    back.  [JSON_stringify_pretty v] is [JSON.stringify(v, null, 2)]. *)
Class JSON : Type := {
  json_text : Type;
  JSON_stringify : value -> json_text;
  JSON_stringify_pretty : value -> json_text;
  JSON_parse : json_text -> result value;
  JSON_parse_stringify :
    forall v, JSON_parse (JSON_stringify v) = Ok v;
  JSON_parse_stringify_pretty :
    forall v, JSON_parse (JSON_stringify_pretty v) = Ok v
}.

(** A codec that represents a text by what [JSON.parse] makes of it; [None]
    is a text that is not JSON. *)
#[local] Instance parsed_text : JSON := {|
  json_text := option value;
  JSON_stringify := fun v => Some v;
  JSON_stringify_pretty := fun v => Some v;
  JSON_parse := fun t =>
    match t with
    | Some v => Ok v
    | None => Throw SyntaxError
    end;
  JSON_parse_stringify := fun v => eq_refl;
  JSON_parse_stringify_pretty := fun v => eq_refl
|}.

(** Modelled from the spec: the page markup is not among the sources.
    [categorySelect] and [categoryFilter] are the two selectable lists of the
    spec's Category Index, HTML [select] elements showing one choice: an
    element holds its options and the index of the selected one. *)
Record option_el : Type := {
  opt_value : string;
  opt_label : string
}.

Record select : Type := {
  options : list option_el;
  selectedIndex : option nat
}.

(** Reading [sel.value]: the value of the selected option, the empty string
    when none is selected. *)
Definition select_value (sel : select) : string :=
  match selectedIndex sel with
  | Some i =>
      match nth_error (options sel) i with
      | Some o => opt_value o
      | None => ""
      end
  | None => ""
  end.

Fixpoint index_of (v : string) (l : list option_el) : option nat :=
  match l with
  | [] => None
  | o :: rest =>
      if String.eqb (opt_value o) v then Some O
      else option_map S (index_of v rest)
  end.

(** Assigning [sel.value = v]: the first option carrying [v] becomes the
    selected one; when no option carries it, none is selected. *)
Definition select_set_value (v : string) (sel : select) : select :=
  {| options := options sel; selectedIndex := index_of v (options sel) |}.

(** Assigning [sel.innerHTML] a single option [<option value="all">]: it is
    the only option and the selected one. *)
Definition select_all (label : string) : select :=
  {| options := [ {| opt_value := "all"; opt_label := label |} ];
     selectedIndex := Some O |}.

(** [sel.appendChild(option)]: the selection stays; a list without
    selection selects its first option. *)
Definition appendChild (o : option_el) (sel : select) : select :=
  {| options := options sel ++ [o];
     selectedIndex :=
       match selectedIndex sel with
       | Some i => Some i
       | None => Some O
       end |}.

(** What [quoteDisplay] shows: the markup it was loaded with, a message, one
    quote, or a list of quotes.  A quote is shown through its [text] and
    [category]. *)
Inductive display : Type :=
| Initial
| Message (s : string)
| OneQuote (text category : jsval)
| QuoteList (l : list (jsval * jsval)).

(** The outcome of [fetch(url)] and of [res.json()]. *)
Record response : Type := {
  res_ok : bool;
  res_status : string;
  res_json : result value
}.

Section Page.
Context {J : JSON}.

(** The state of a page: the global [quotes], the storage slots the
    scripts use ([localStorage] keys [quotes] and [selectedCategory],
    [sessionStorage] key [lastQuote]), the form controls, the display and
    the messages shown ([alert] dialogs and the notification box), latest
    first. *)
Record page : Type := {
  quotes : list value;
  ls_quotes : option json_text;
  ls_selectedCategory : option string;
  ss_lastQuote : option json_text;
  categorySelect : select;
  categoryFilter : select;
  quoteDisplay : display;
  newQuoteText : string;
  newQuoteCategory : string;
  importFile : string;
  alerts : list string;
  notifications : list string
}.

Definition set_quotes (x : list value) (s : page) : page :=
  {| quotes := x; ls_quotes := ls_quotes s;
     ls_selectedCategory := ls_selectedCategory s;
     ss_lastQuote := ss_lastQuote s; categorySelect := categorySelect s;
     categoryFilter := categoryFilter s; quoteDisplay := quoteDisplay s;
     newQuoteText := newQuoteText s; newQuoteCategory := newQuoteCategory s;
     importFile := importFile s; alerts := alerts s;
     notifications := notifications s |}.

Definition set_ls_quotes (x : option json_text) (s : page) : page :=
  {| quotes := quotes s; ls_quotes := x;
     ls_selectedCategory := ls_selectedCategory s;
     ss_lastQuote := ss_lastQuote s; categorySelect := categorySelect s;
     categoryFilter := categoryFilter s; quoteDisplay := quoteDisplay s;
     newQuoteText := newQuoteText s; newQuoteCategory := newQuoteCategory s;
     importFile := importFile s; alerts := alerts s;
     notifications := notifications s |}.

Definition set_ls_selectedCategory (x : option string) (s : page) : page :=
  {| quotes := quotes s; ls_quotes := ls_quotes s;
     ls_selectedCategory := x;
     ss_lastQuote := ss_lastQuote s; categorySelect := categorySelect s;
     categoryFilter := categoryFilter s; quoteDisplay := quoteDisplay s;
     newQuoteText := newQuoteText s; newQuoteCategory := newQuoteCategory s;
     importFile := importFile s; alerts := alerts s;
     notifications := notifications s |}.

Definition set_ss_lastQuote (x : option json_text) (s : page) : page :=
  {| quotes := quotes s; ls_quotes := ls_quotes s;
     ls_selectedCategory := ls_selectedCategory s;
     ss_lastQuote := x; categorySelect := categorySelect s;
     categoryFilter := categoryFilter s; quoteDisplay := quoteDisplay s;
     newQuoteText := newQuoteText s; newQuoteCategory := newQuoteCategory s;
     importFile := importFile s; alerts := alerts s;
     notifications := notifications s |}.

Definition set_categorySelect (x : select) (s : page) : page :=
  {| quotes := quotes s; ls_quotes := ls_quotes s;
     ls_selectedCategory := ls_selectedCategory s;
     ss_lastQuote := ss_lastQuote s; categorySelect := x;
     categoryFilter := categoryFilter s; quoteDisplay := quoteDisplay s;
     newQuoteText := newQuoteText s; newQuoteCategory := newQuoteCategory s;
     importFile := importFile s; alerts := alerts s;
     notifications := notifications s |}.

Definition set_categoryFilter (x : select) (s : page) : page :=
  {| quotes := quotes s; ls_quotes := ls_quotes s;
     ls_selectedCategory := ls_selectedCategory s;
     ss_lastQuote := ss_lastQuote s; categorySelect := categorySelect s;
     categoryFilter := x; quoteDisplay := quoteDisplay s;
     newQuoteText := newQuoteText s; newQuoteCategory := newQuoteCategory s;
     importFile := importFile s; alerts := alerts s;
     notifications := notifications s |}.

Definition set_quoteDisplay (x : display) (s : page) : page :=
  {| quotes := quotes s; ls_quotes := ls_quotes s;
     ls_selectedCategory := ls_selectedCategory s;
     ss_lastQuote := ss_lastQuote s; categorySelect := categorySelect s;
     categoryFilter := categoryFilter s; quoteDisplay := x;
     newQuoteText := newQuoteText s; newQuoteCategory := newQuoteCategory s;
     importFile := importFile s; alerts := alerts s;
     notifications := notifications s |}.

Definition set_newQuoteText (x : string) (s : page) : page :=
  {| quotes := quotes s; ls_quotes := ls_quotes s;
     ls_selectedCategory := ls_selectedCategory s;
     ss_lastQuote := ss_lastQuote s; categorySelect := categorySelect s;
     categoryFilter := categoryFilter s; quoteDisplay := quoteDisplay s;
     newQuoteText := x; newQuoteCategory := newQuoteCategory s;
     importFile := importFile s; alerts := alerts s;
     notifications := notifications s |}.

Definition set_newQuoteCategory (x : string) (s : page) : page :=
  {| quotes := quotes s; ls_quotes := ls_quotes s;
     ls_selectedCategory := ls_selectedCategory s;
     ss_lastQuote := ss_lastQuote s; categorySelect := categorySelect s;
     categoryFilter := categoryFilter s; quoteDisplay := quoteDisplay s;
     newQuoteText := newQuoteText s; newQuoteCategory := x;
     importFile := importFile s; alerts := alerts s;
     notifications := notifications s |}.

Definition set_importFile (x : string) (s : page) : page :=
  {| quotes := quotes s; ls_quotes := ls_quotes s;
     ls_selectedCategory := ls_selectedCategory s;
     ss_lastQuote := ss_lastQuote s; categorySelect := categorySelect s;
     categoryFilter := categoryFilter s; quoteDisplay := quoteDisplay s;
     newQuoteText := newQuoteText s; newQuoteCategory := newQuoteCategory s;
     importFile := x; alerts := alerts s;
     notifications := notifications s |}.

Definition set_alerts (x : list string) (s : page) : page :=
  {| quotes := quotes s; ls_quotes := ls_quotes s;
     ls_selectedCategory := ls_selectedCategory s;
     ss_lastQuote := ss_lastQuote s; categorySelect := categorySelect s;
     categoryFilter := categoryFilter s; quoteDisplay := quoteDisplay s;
     newQuoteText := newQuoteText s; newQuoteCategory := newQuoteCategory s;
     importFile := importFile s; alerts := x;
     notifications := notifications s |}.

Definition set_notifications (x : list string) (s : page) : page :=
  {| quotes := quotes s; ls_quotes := ls_quotes s;
     ls_selectedCategory := ls_selectedCategory s;
     ss_lastQuote := ss_lastQuote s; categorySelect := categorySelect s;
     categoryFilter := categoryFilter s; quoteDisplay := quoteDisplay s;
     newQuoteText := newQuoteText s; newQuoteCategory := newQuoteCategory s;
     importFile := importFile s; alerts := alerts s;
     notifications := x |}.

(** ** The state monad of event handlers

    A handler runs on the page and either returns or throws; what it did
    to the page before throwing stays done. *)
Definition M (A : Type) : Type := page -> page * result A.

Definition ret {A : Type} (a : A) : M A := fun s => (s, Ok a).

Definition bind {A B : Type} (m : M A) (f : A -> M B) : M B :=
  fun s =>
    match m s with
    | (s', Ok a) => f a s'
    | (s', Throw e) => (s', Throw e)
    end.

Definition throwM {A : Type} (e : exn) : M A := fun s => (s, Throw e).

Definition lift {A : Type} (r : result A) : M A := fun s => (s, r).

Definition gets {A : Type} (f : page -> A) : M A := fun s => (s, Ok (f s)).

Definition modify (f : page -> page) : M unit := fun s => (f s, Ok tt).

(** [try { body } catch (e) { handler e }] *)
Definition try_catch {A : Type} (body : M A) (handler : exn -> M A) : M A :=
  fun s =>
    match body s with
    | (s', Ok a) => (s', Ok a)
    | (s', Throw e) => handler e s'
    end.

Fixpoint forEach {A : Type} (f : A -> M unit) (l : list A) : M unit :=
  match l with
  | [] => ret tt
  | x :: rest => bind (f x) (fun _ => forEach f rest)
  end.

(** Running a handler: the page it leaves. *)
Definition run {A : Type} (m : M A) (s : page) : page := fst (m s).

(** [JSON.parse(storage.getItem(key))]: a missing key reads as [null]. *)
Definition parse_item (item : option json_text) : result value :=
  match item with
  | Some t => JSON_parse t
  | None => Ok JNull
  end.

End Page.

Notation "x <- m ;; k" := (bind m (fun x => k))
  (at level 61, m at next level, right associativity).
Notation "m ;;; k" := (bind m (fun _ => k))
  (at level 61, right associativity).

(** [error.message]: the message given to [new Error]; the platform's
    wording of its own errors is represented by the error's name. *)
Definition message (e : exn) : string :=
  match e with
  | Error m => m
  | TypeError => "TypeError"
  | SyntaxError => "SyntaxError"
  | NetworkError => "NetworkError"
  end.

(** [array[i]] for a number [i]: [undefined] outside the array. *)
Definition index (l : list value) (i : Z) : jsval :=
  if (i <? 0)%Z then undefined else nth_error l (Z.to_nat i).

(** [localStorage.getItem("selectedCategory") || "all"] *)
Definition saved_or_all (item : option string) : string :=
  match item with
  | Some c => if truthy (Some (JStr c)) then c else "all"
  | None => "all"
  end.

(** [posts.slice(0, 5).map(post => ({ text: post.title, category: "server" }))]:
    a [TypeError] when the response is not an array ([slice] or [map] is not
    a function there) or holds a [null] among its first five records. *)
Definition map_posts (posts : value) : result (list value) :=
  match posts with
  | JArr l =>
      map_r (fun post =>
               title <-- get post "title" ;;
               Ok (mk_quote title (Some (JStr "server"))))
            (firstn 5 l)
  | _ => Throw TypeError
  end.

(** [quotes.filter(q => q.category === selected)], and all the quotes for
    ["all"]: the view that [filterQuotes] lists and [displayRandomQuote]
    draws from. *)
Definition filteredQuotes (selected : string) (qs : list value)
  : result (list value) :=
  if String.eqb selected "all" then Ok qs
  else filter_r (fun q =>
                   c <-- get q "category" ;;
                   Ok (strict_eq c (Some (JStr selected)))) qs.

(** Reading [q.text] and [q.category] to show a quote. *)
Definition shown (q : value) : result (jsval * jsval) :=
  t <-- get q "text" ;;
  c <-- get q "category" ;;
  Ok (t, c).

(** [localQuotes.some(localQuote => localQuote.text === serverQuote.text)] *)
Definition text_exists (localQuotes : list value) (serverQuote : value)
  : result bool :=
  some (fun localQuote =>
          a <-- get localQuote "text" ;;
          b <-- get serverQuote "text" ;;
          Ok (strict_eq a b)) localQuotes.

(** ** [src/dom-manipulation/script.js] *)
Module ScriptJs.
Section Script.
Context {J : JSON}.

Definition defaults : list value :=
  [ mk_quote (Some (JStr "The best way to predict the future is to invent it."))
             (Some (JStr "inspiration"));
    mk_quote (Some (JStr "Do not be afraid to give up the good to go for the great."))
             (Some (JStr "motivation"));
    mk_quote (Some (JStr "Success usually comes to those who are too busy to be looking for it."))
             (Some (JStr "success")) ].


Definition saveQuotes : M unit :=
  modify (fun s => set_ls_quotes (Some (JSON_stringify (JArr (quotes s)))) s).

Definition alert (msg : string) : M unit :=
  modify (fun s => set_alerts (msg :: alerts s) s).

(** The notification box takes the message; the timer that hides it is
    left out. *)
Definition showNotification (msg : string) : M unit :=
  modify (fun s => set_notifications (msg :: notifications s) s).

(** One round of the [categories.forEach] loop: [cat.charAt] is not a
    function unless [cat] is a string. *)
Definition add_category (cat : jsval) : M unit :=
  match cat with
  | Some (JStr c) =>
      let o := {| opt_value := c; opt_label := capitalize c |} in
      modify (fun s => set_categorySelect (appendChild o (categorySelect s)) s) ;;;
      modify (fun s => set_categoryFilter (appendChild o (categoryFilter s)) s)
  | _ => throwM TypeError
  end.

Definition populateCategories : M unit :=
  qs <- gets quotes ;;
  cats <- lift (map_r (fun q => get q "category") qs) ;;
  let categories := set_of cats in
  modify (set_categorySelect (select_all "All")) ;;;
  modify (set_categoryFilter (select_all "All Categories")) ;;;
  forEach add_category categories.

Definition filterQuotes : M unit :=
  selected <- gets (fun s => select_value (categoryFilter s)) ;;
  modify (set_ls_selectedCategory (Some selected)) ;;;
  qs <- gets quotes ;;
  filtered <- lift (filteredQuotes selected qs) ;;
  if (List.length filtered =? 0)%nat
  then modify (set_quoteDisplay (Message "No quotes found in this category."))
  else
    l <- lift (map_r shown filtered) ;;
    modify (set_quoteDisplay (QuoteList l)).

(** One round of [formattedQuotes.forEach]: the local array and the
    [updated] flag before and after. *)
Definition merge_step (serverQuote : value) (acc : list value * bool)
  : result (list value * bool) :=
  let (localQuotes, updated) := acc in
  exists_ <-- text_exists localQuotes serverQuote ;;
  if negb exists_
  then Ok (localQuotes ++ [serverQuote], true)
  else Ok (localQuotes, updated).

(** The [forEach] loop of [syncWithServer], the spec's [merge]. *)
Definition merge (candidates : list value) (acc : list value * bool)
  : result (list value * bool) :=
  forEach_r merge_step candidates acc.

(** The loop on [JSON.parse(localStorage.getItem("quotes")) || []]: when
    the stored value is not an array, [localQuotes.some] is not a
    function, which shows as soon as there is a candidate; without a
    candidate nothing is pushed and the local value is not used. *)
Definition merge_into (parsed : value) (candidates : list value)
  : result (list value * bool) :=
  match (if truthy (Some parsed) then parsed else JArr []) with
  | JArr localQuotes => merge candidates (localQuotes, false)
  | _ =>
      match candidates with
      | [] => Ok ([], false)
      | _ => Throw TypeError
      end
  end.

(** [syncWithServer], from the moment the request settles: no other
    handler runs between the reading of [localStorage] and the end. *)
Definition syncWithServer (fetched : result response) : M unit :=
  try_catch
    (res <- lift fetched ;;
     serverQuotes <- lift (res_json res) ;;
     formattedQuotes <- lift (map_posts serverQuotes) ;;
     item <- gets ls_quotes ;;
     parsed <- lift (parse_item item) ;;
     merged <- lift (merge_into parsed formattedQuotes) ;;
     let (localQuotes, updated) := (merged : list value * bool) in
     if updated then
       modify (set_quotes localQuotes) ;;;
       modify (fun s =>
         set_ls_quotes (Some (JSON_stringify (JArr (quotes s)))) s) ;;;
       populateCategories ;;;
       filterQuotes ;;;
       showNotification "✅ Quotes synced from server."
     else ret tt)
    (fun _ => showNotification "⚠️ Failed to sync with server.").

(** [displayRandomQuote]; [random] is what [Math.random()] returns. *)
Definition displayRandomQuote (random : Q) : M unit :=
  selectedCategory <- gets (fun s => select_value (categorySelect s)) ;;
  qs <- gets quotes ;;
  filtered <- lift (filteredQuotes selectedCategory qs) ;;
  if (List.length filtered =? 0)%nat
  then modify (set_quoteDisplay
                 (Message "No quotes available for this category."))
  else
    let randomIndex :=
      Qfloor (random * inject_Z (Z.of_nat (List.length filtered))) in
    match index filtered randomIndex with
    | None => throwM TypeError
    | Some selectedQuote =>
        tc <- lift (shown selectedQuote) ;;
        modify (set_quoteDisplay (OneQuote (fst tc) (snd tc))) ;;;
        modify (set_ss_lastQuote (Some (JSON_stringify selectedQuote)))
    end.

Definition addQuote : M unit :=
  text <- gets (fun s => trim (newQuoteText s)) ;;
  category <- gets (fun s => toLowerCase (trim (newQuoteCategory s))) ;;
  if negb (truthy (Some (JStr text))) || negb (truthy (Some (JStr category)))
  then alert "Please fill in both the quote and category."
  else
    modify (fun s =>
      set_quotes
        (quotes s ++ [mk_quote (Some (JStr text)) (Some (JStr category))])
        s) ;;;
    saveQuotes ;;;
    populateCategories ;;;
    filterQuotes ;;;
    modify (set_newQuoteText "") ;;;
    modify (set_newQuoteCategory "") ;;;
    alert "Quote added!".

(** [exportQuotes] returns the content of the downloaded [quotes.json]. *)
Definition exportQuotes : M json_text :=
  qs <- gets quotes ;;
  ret (JSON_stringify_pretty (JArr qs)).

(** [importFromJsonFile] with the text of the chosen file, through to the
    end of the reader's [onload]; without a file [readAsText] throws
    before anything is read. *)
Definition importFromJsonFile (file : option json_text) : M unit :=
  match file with
  | None => throwM TypeError
  | Some content =>
      try_catch
        (importedQuotes <- lift (JSON_parse content) ;;
         match importedQuotes with
         | JArr l =>
             modify (fun s => set_quotes (quotes s ++ l) s) ;;;
             saveQuotes ;;;
             populateCategories ;;;
             filterQuotes ;;;
             alert "Quotes imported successfully!"
         | _ => throwM (Error "Invalid file format")
         end)
        (fun _ => alert "Import failed: Invalid JSON format.")
  end.

Definition restoreFilter : M unit :=
  savedCategory <- gets (fun s => saved_or_all (ls_selectedCategory s)) ;;
  modify (fun s =>
    set_categoryFilter (select_set_value savedCategory (categoryFilter s)) s) ;;;
  filterQuotes.

(** The initialisation at the end of the script, before the first
    synchronisation settles. *)
Definition startup : M unit :=
  populateCategories ;;;
  restoreFilter.

End Script.
End ScriptJs.

(** ** [src/unnamed/part_002]

    The functions the properties below are about: storage, categories,
    synchronisation, filtering, import and the restoring of the filter. *)
Module Part002.
Section Script.
Context {J : JSON}.

Definition saveQuotes : M unit :=
  modify (fun s => set_ls_quotes (Some (JSON_stringify (JArr (quotes s)))) s).

(** The notification box takes the message; its colours and the timers
    that fade it are left out. *)
Definition showNotification (msg : string) : M unit :=
  modify (fun s => set_notifications (msg :: notifications s) s).

(** [x.toLowerCase()]: not a function unless [x] is a string. *)
Definition lower (x : jsval) : result string :=
  match x with
  | Some (JStr c) => Ok (toLowerCase c)
  | _ => Throw TypeError
  end.

Definition add_category (cat : string) : M unit :=
  let o := {| opt_value := cat; opt_label := capitalize cat |} in
  modify (fun s => set_categorySelect (appendChild o (categorySelect s)) s) ;;;
  modify (fun s => set_categoryFilter (appendChild o (categoryFilter s)) s).

Definition populateCategories : M unit :=
  qs <- gets quotes ;;
  cats <- lift (map_r (fun q => c <-- get q "category" ;; lower c) qs) ;;
  let categories := sort (uniq String.eqb cats) in
  modify (set_categorySelect (select_all "All")) ;;;
  modify (set_categoryFilter (select_all "All Categories")) ;;;
  forEach add_category categories.

Definition fetchQuotesFromServer (fetched : result response)
  : M (list value) :=
  try_catch
    (showNotification "Fetching quotes from server..." ;;;
     res <- lift fetched ;;
     (if negb (res_ok res)
      then throwM (Error ("HTTP error! status: " ++ res_status res)%string)
      else ret tt) ;;;
     serverPosts <- lift (res_json res) ;;
     fetchedQuotes <- lift (map_posts serverPosts) ;;
     showNotification "Fetched quotes from server successfully." ;;;
     ret fetchedQuotes)
    (fun error =>
       showNotification
         ("⚠️ Failed to fetch quotes from server: " ++ message error)%string ;;;
       ret []).

Definition filterQuotes : M unit :=
  selected <- gets (fun s => select_value (categoryFilter s)) ;;
  modify (set_ls_selectedCategory (Some selected)) ;;;
  qs <- gets quotes ;;
  filtered <- lift (filteredQuotes selected qs) ;;
  if (List.length filtered =? 0)%nat
  then modify (set_quoteDisplay
                 (Message ("No quotes found in the '" ++ selected
                           ++ "' category.")%string))
  else
    l <- lift (map_r shown filtered) ;;
    modify (set_quoteDisplay (QuoteList l)).

(** [!exists && q.text && q.category], left to right: the test of both
    [syncWithServer] and [importFromJsonFile]. *)
Definition accepts (exists_ : bool) (q : value) : result bool :=
  if negb exists_ then
    text <-- get q "text" ;;
    if truthy text then
      category <-- get q "category" ;;
      Ok (truthy category)
    else Ok false
  else Ok false.

(** One round of [serverQuotes.forEach]. *)
Definition merge_step (serverQuote : value) (acc : list value * bool)
  : result (list value * bool) :=
  let (localQuotes, updated) := acc in
  exists_ <-- text_exists localQuotes serverQuote ;;
  ok <-- accepts exists_ serverQuote ;;
  if (ok : bool)
  then Ok (localQuotes ++ [serverQuote], true)
  else Ok (localQuotes, updated).

(** The [forEach] loop of [syncWithServer], the spec's [merge]. *)
Definition merge (candidates : list value) (acc : list value * bool)
  : result (list value * bool) :=
  forEach_r merge_step candidates acc.

(** The loop on [JSON.parse(localStorage.getItem("quotes")) || []], as in
    [script.js]. *)
Definition merge_into (parsed : value) (candidates : list value)
  : result (list value * bool) :=
  match (if truthy (Some parsed) then parsed else JArr []) with
  | JArr localQuotes => merge candidates (localQuotes, false)
  | _ =>
      match candidates with
      | [] => Ok ([], false)
      | _ => Throw TypeError
      end
  end.

(** [syncWithServer], with the request settled; nothing catches what the
    merge throws. *)
Definition syncWithServer (fetched : result response) : M unit :=
  showNotification "Syncing with server..." ;;;
  serverQuotes <- fetchQuotesFromServer fetched ;;
  item <- gets ls_quotes ;;
  parsed <- lift (parse_item item) ;;
  merged <- lift (merge_into parsed serverQuotes) ;;
  let (localQuotes, updated) := (merged : list value * bool) in
  if updated then
    modify (set_quotes localQuotes) ;;;
    saveQuotes ;;;
    populateCategories ;;;
    filterQuotes ;;;
    showNotification "✅ Quotes synced from server. New quotes added."
  else
    showNotification
      "🔄 No new quotes found from server. Local quotes are up to date.".

(** [quotes.some(q => q.text === impQuote.text && q.category === impQuote.category)] *)
Definition pair_exists (qs : list value) (impQuote : value) : result bool :=
  some (fun q =>
          a <-- get q "text" ;;
          b <-- get impQuote "text" ;;
          if strict_eq a b then
            c <-- get q "category" ;;
            d <-- get impQuote "category" ;;
            Ok (strict_eq c d)
          else Ok false) qs.

(** One round of [importedQuotes.forEach]: [quotes] is pushed to in
    place, [addedCount] goes from the argument to the result. *)
Definition import_step (impQuote : value) (addedCount : nat) : M nat :=
  qs <- gets quotes ;;
  exists_ <- lift (pair_exists qs impQuote) ;;
  ok <- lift (accepts exists_ impQuote) ;;
  if (ok : bool) then
    text <- lift (get impQuote "text") ;;
    category <- lift (get impQuote "category") ;;
    lowered <- lift (lower category) ;;
    modify (fun s =>
      set_quotes (quotes s ++ [mk_quote text (Some (JStr lowered))]) s) ;;;
    ret (S addedCount)
  else ret addedCount.

Fixpoint import_loop (importedQuotes : list value) (addedCount : nat)
  : M nat :=
  match importedQuotes with
  | [] => ret addedCount
  | impQuote :: rest =>
      n <- import_step impQuote addedCount ;;
      import_loop rest n
  end.

Definition decimal (n : nat) : string :=
  NilEmpty.string_of_uint (Nat.to_uint n).

(** [importFromJsonFile] with the text of the chosen file, if any, through
    to the end of the reader's [onload]. *)
Definition importFromJsonFile (file : option json_text) : M unit :=
  match file with
  | None => showNotification "No file selected for import."
  | Some content =>
      try_catch
        (importedQuotes <- lift (JSON_parse content) ;;
         match importedQuotes with
         | JArr l =>
             addedCount <- import_loop l 0 ;;
             (if (0 <? addedCount)%nat then
                saveQuotes ;;;
                populateCategories ;;;
                filterQuotes ;;;
                showNotification
                  ("✅ Successfully imported " ++ decimal addedCount
                   ++ " new quotes!")%string
              else
                showNotification
                  "ℹ️ No new quotes were imported (either no new quotes or invalid format).") ;;;
             modify (set_importFile "")
         | _ =>
             throwM (Error "Invalid file format: Expected a JSON array of quotes.")
         end)
        (fun err =>
           showNotification
             ("❌ Import failed: "
              ++ (if truthy (Some (JStr (message err))) then message err
                  else "Invalid JSON format or corrupted file."))%string ;;;
           modify (set_importFile ""))
  end.

Definition restoreFilter : M unit :=
  savedCategory <- gets (fun s => saved_or_all (ls_selectedCategory s)) ;;
  has_option <- gets (fun s =>
    existsb (fun o => String.eqb (opt_value o) savedCategory)
            (options (categoryFilter s))) ;;
  (if (has_option : bool) then
     modify (fun s =>
       set_categoryFilter
         (select_set_value savedCategory (categoryFilter s)) s)
   else ret tt) ;;;
  filterQuotes.

(** The start of the [DOMContentLoaded] handler, up to the restored
    filter; the first synchronisation and the first random quote follow
    and leave the filter alone. *)
Definition startup : M unit :=
  populateCategories ;;;
  restoreFilter.

(** The body of the request of [postQuoteToServer]:
    [{ title: quoteData.text, body: quoteData.category, userId: 1 }]. *)
Definition post_body (quoteData : value) : result value :=
  title <-- get quoteData "text" ;;
  body <-- get quoteData "category" ;;
  Ok (JObj (field "title" title ++ field "body" body ++ [("userId", JNum 1)])).

(** [postQuoteToServer], the request being settled with [posted]: the body
    is built before the request leaves, inside the [try]. *)
Definition postQuoteToServer (quoteData : value) (posted : result response)
  : M bool :=
  try_catch
    (showNotification "Posting quote to server..." ;;;
     body <- lift (post_body quoteData) ;;
     res <- lift posted ;;
     (if negb (res_ok res)
      then throwM (Error ("HTTP error! status: " ++ res_status res)%string)
      else ret tt) ;;;
     responseData <- lift (res_json res) ;;
     showNotification "✅ Quote posted to server successfully!" ;;;
     ret true)
    (fun error =>
       showNotification
         ("❌ Failed to post quote to server: " ++ message error)%string ;;;
       ret false).

(** [displayRandomQuote]; [random] is what [Math.random()] returns.  The
    category is shown with its first letter in upper case:
    [selectedQuote.category.charAt] is not a function unless the category
    is a string. *)
Definition displayRandomQuote (random : Q) : M unit :=
  selectedCategory <- gets (fun s => select_value (categorySelect s)) ;;
  qs <- gets quotes ;;
  filtered <- lift (filteredQuotes selectedCategory qs) ;;
  if (List.length filtered =? 0)%nat
  then modify (set_quoteDisplay
                 (Message "No quotes available for this category."))
  else
    let randomIndex :=
      Qfloor (random * inject_Z (Z.of_nat (List.length filtered))) in
    match index filtered randomIndex with
    | None => throwM TypeError
    | Some selectedQuote =>
        text <- lift (get selectedQuote "text") ;;
        category <- lift (get selectedQuote "category") ;;
        match category with
        | Some (JStr c) =>
            modify (set_quoteDisplay
                      (OneQuote text (Some (JStr (capitalize c))))) ;;;
            modify (set_ss_lastQuote (Some (JSON_stringify selectedQuote)))
        | _ => throwM TypeError
        end
    end.

(** [addQuote], no other handler running while the request of
    [postQuoteToServer] is pending. *)
Definition addQuote (posted : result response) : M unit :=
  text <- gets (fun s => trim (newQuoteText s)) ;;
  category <- gets (fun s => toLowerCase (trim (newQuoteCategory s))) ;;
  if negb (truthy (Some (JStr text))) || negb (truthy (Some (JStr category)))
  then showNotification "🚫 Please fill in both the quote text and category."
  else
    let newQuote := mk_quote (Some (JStr text)) (Some (JStr category)) in
    postedSuccessfully <- postQuoteToServer newQuote posted ;;
    modify (fun s => set_quotes (quotes s ++ [newQuote]) s) ;;;
    saveQuotes ;;;
    populateCategories ;;;
    filterQuotes ;;;
    modify (set_newQuoteText "") ;;;
    modify (set_newQuoteCategory "") ;;;
    if (postedSuccessfully : bool)
    then showNotification "✅ Quote added locally and posted to server!"
    else showNotification
           "⚠️ Quote added locally, but failed to post to server.".

(** [exportQuotes] returns the content of the downloaded [quotes.json]. *)
Definition exportQuotes : M json_text :=
  qs <- gets quotes ;;
  showNotification "✅ Quotes exported successfully!" ;;;
  ret (JSON_stringify_pretty (JArr qs)).


End Script.
End Part002.

(** ** [src/dom-manipulation/script.js], second script

    Lines 209 to 333 of the file are a script of their own: a version that
    keeps the quotes in memory only and builds its form itself.  Its quotes
    are objects with a string [text] and a string [category]: the array
    starts with five such literals and only [addQuote] pushes to it.  The
    page markup is not among the sources: the two elements the script looks
    up at its start, [currentQuoteText] and [currentQuoteCategory], are
    taken to exist, and the inputs found by [getElementById] to be those of
    the forms the script builds. *)
Module FormScript.

Record quote_object : Type := {
  text : string;
  category : string
}.

(** A form appended by [createAddQuoteForm]: the values of its two
    inputs. *)
Record form : Type := {
  newQuoteText : string;
  newQuoteCategory : string
}.

(** The global [quotes], the text of the two elements of the display, the
    forms in document order, the alert boxes on the page and the objects
    written by [console.log]. *)
Record document : Type := {
  quotes : list quote_object;
  currentQuoteText : string;
  currentQuoteCategory : string;
  forms : list form;
  alertBoxes : list string;
  console : list quote_object
}.

Definition defaults : list quote_object :=
  [ {| text := "The only way to do great work is to love what you do.";
       category := "Inspiration" |};
    {| text := "Strive not to be a success, but rather to be of value.";
       category := "Motivation" |};
    {| text := "The mind is everything. What you think you become.";
       category := "Philosophy" |};
    {| text := "Life is what happens when you're busy making other plans.";
       category := "Life" |};
    {| text := "The future belongs to those who believe in the beauty of their dreams.";
       category := "Dreams" |} ].

Definition set_display (t c : string) (d : document) : document :=
  {| quotes := quotes d;
     currentQuoteText := t;
     currentQuoteCategory := c;
     forms := forms d;
     alertBoxes := alertBoxes d;
     console := console d |}.

Definition set_quotes (qs : list quote_object) (d : document) : document :=
  {| quotes := qs;
     currentQuoteText := currentQuoteText d;
     currentQuoteCategory := currentQuoteCategory d;
     forms := forms d;
     alertBoxes := alertBoxes d;
     console := console d |}.

Definition set_forms (fs : list form) (d : document) : document :=
  {| quotes := quotes d;
     currentQuoteText := currentQuoteText d;
     currentQuoteCategory := currentQuoteCategory d;
     forms := fs;
     alertBoxes := alertBoxes d;
     console := console d |}.

Definition set_alertBoxes (boxes : list string) (d : document) : document :=
  {| quotes := quotes d;
     currentQuoteText := currentQuoteText d;
     currentQuoteCategory := currentQuoteCategory d;
     forms := forms d;
     alertBoxes := boxes;
     console := console d |}.

Definition set_console (logged : list quote_object) (d : document)
  : document :=
  {| quotes := quotes d;
     currentQuoteText := currentQuoteText d;
     currentQuoteCategory := currentQuoteCategory d;
     forms := forms d;
     alertBoxes := alertBoxes d;
     console := logged |}.

(** The template literal that puts [s] between double quotes. *)
Definition quoted (s : string) : string :=
  String "034"%char (s ++ String "034"%char EmptyString)%string.

(** [quotes[i]] for a number [i]: [undefined] outside the array. *)
Definition element (l : list quote_object) (i : Z) : option quote_object :=
  if (i <? 0)%Z then None else nth_error l (Z.to_nat i).

(** [showRandomQuote]; [random] is what [Math.random()] returns.  Reading
    [randomQuote.text] throws when the index is outside the array. *)
Definition showRandomQuote (random : Q) (d : document)
  : document * result unit :=
  if (List.length (quotes d) =? 0)%nat
  then (set_display "No quotes available. Add some!" "" d, Ok tt)
  else
    let randomIndex :=
      Qfloor (random * inject_Z (Z.of_nat (List.length (quotes d)))) in
    match element (quotes d) randomIndex with
    | Some randomQuote =>
        (set_display (quoted (text randomQuote))
                     ("- " ++ category randomQuote)%string d,
         Ok tt)
    | None => (d, Throw TypeError)
    end.


(** The alert box is appended to the body; the timer that removes it is
    left out. *)
Definition alertMessage (message : string) (d : document)
  : document * result unit :=
  (set_alertBoxes (message :: alertBoxes d) d, Ok tt).

(** [addQuote]: [getElementById] finds the inputs of the first form, and
    [null] when there is no form, whose [value] cannot be read. *)
Definition addQuote (random : Q) (d : document) : document * result unit :=
  match forms d with
  | [] => (d, Throw TypeError)
  | f :: rest =>
      let quoteText := trim (newQuoteText f) in
      let quoteCategory := trim (newQuoteCategory f) in
      if truthy (Some (JStr quoteText)) && truthy (Some (JStr quoteCategory))
      then
        let q := {| text := quoteText; category := quoteCategory |} in
        let pushed :=
          set_forms ({| newQuoteText := ""; newQuoteCategory := "" |} :: rest)
                    (set_quotes (quotes d ++ [q]) d) in
        match showRandomQuote random pushed with
        | (d', Ok _) => (set_console (q :: console d') d', Ok tt)
        | (d', Throw e) => (d', Throw e)
        end
      else alertMessage "Please enter both quote text and category." d
  end.




End FormScript.

(** ** Vocabulary of the properties *)

Section Vocabulary.
Context {J : JSON}.

(** The Quote Store: the sequence in memory and its persisted copy. *)
Definition store (s : page) : list value * option json_text :=
  (quotes s, ls_quotes s).

(** The persisted copy is the serialisation of the sequence in memory. *)
Definition persisted_ok (s : page) : Prop :=
  ls_quotes s = Some (JSON_stringify (JArr (quotes s))).

(** A handler that leaves a part of the page as it found it, also when it
    throws; [keeps_store]: it leaves the Quote Store. *)
Definition keeps {X A : Type} (part : page -> X) (m : M A) : Prop :=
  forall s, part (fst (m s)) = part s.

(** The [(text, category)] record of a quote. *)
Definition record_of (q : value) : result jsval * result jsval :=
  (get q "text", get q "category").

Definition records (qs : list value) : list (result jsval * result jsval) :=
  map record_of qs.

(** Some quote of [qs] has a text strictly equal to that of [c]. *)
Definition same_text_in (qs : list value) (c : value) : Prop :=
  exists q a b,
    In q qs /\ get q "text" = Ok a /\ get c "text" = Ok b /\
    strict_eq a b = true.

(** The candidates of a run are quote objects with category ["server"]. *)
Definition server_quote (c : value) : Prop :=
  exists title, c = mk_quote title (Some (JStr "server")).

(** The text of a candidate is compared by value. *)
Definition primitive_text (c : value) : Prop :=
  forall t, get c "text" = Ok t -> primitive t = true.

(** The first five records of a response carry titles compared by value:
    strings, as the remote endpoint serves them, or any other primitive. *)
Definition primitive_titles (fetched : result response) : Prop :=
  forall res l,
    fetched = Ok res -> res_json res = Ok (JArr l) ->
    Forall (fun post => forall t, get post "title" = Ok t -> primitive t = true)
           (firstn 5 l).

(** [local] is the array [syncWithServer] reads from [localStorage]:
    [JSON.parse(localStorage.getItem("quotes")) || []]. *)
Definition stored_quotes (s : page) (local : list value) : Prop :=
  exists parsed,
    parse_item (ls_quotes s) = Ok parsed
    /\ (if truthy (Some parsed) then parsed else JArr []) = JArr local.

Definition server_category (q : value) : Prop :=
  get q "category" = Ok (Some (JStr "server")).

(** A candidate of a run whose text is compared by value. *)
Definition plain_candidate (c : value) : Prop :=
  server_quote c /\ primitive_text c.

(** The candidates [script.js] maps from the settled request. *)
Definition script_candidates (fetched : result response)
  : result (list value) :=
  res <-- fetched ;;
  body <-- res_json res ;;
  map_posts body.

(** What the loop of [script.js] computes from the settled request and the
    stored item. *)
Definition script_sync_outcome (fetched : result response)
  (item : option json_text) : result (list value * bool) :=
  candidates <-- script_candidates fetched ;;
  parsed <-- parse_item item ;;
  ScriptJs.merge_into parsed candidates.

(** The candidates [fetchQuotesFromServer] of [part_002] returns: none when
    anything failed. *)
Definition part002_candidates (fetched : result response) : list value :=
  match fetched with
  | Ok res =>
      if negb (res_ok res) then []
      else match res_json res with
           | Ok body =>
               match map_posts body with
               | Ok l => l
               | Throw _ => []
               end
           | Throw _ => []
           end
  | Throw _ => []
  end.

Definition part002_sync_outcome (fetched : result response)
  (item : option json_text) : result (list value * bool) :=
  parsed <-- parse_item item ;;
  Part002.merge_into parsed (part002_candidates fetched).

(** The store a synchronisation leaves, given what its loop computed. *)
Definition store_after_sync (s : page) (outcome : result (list value * bool))
  : list value * option json_text :=
  match outcome with
  | Ok (l, true) => (l, Some (JSON_stringify (JArr l)))
  | _ => store s
  end.

(** A run that took the page from [s] to [s'] appended [added]: at most
    five quotes, all of category ["server"], put after the array read from
    [localStorage], which is the sequence in memory when the two are
    reconciled.  A run that appends nothing leaves the store as it was. *)
Definition sync_appended (s s' : page) (added : list value) : Prop :=
  (List.length added <= 5)%nat
  /\ Forall server_category added
  /\ ((added = [] /\ store s' = store s)
      \/ (added <> []
          /\ exists local, stored_quotes s local /\ quotes s' = local ++ added))
  /\ (persisted_ok s -> quotes s' = quotes s ++ added).

End Vocabulary.

Abbreviation keeps_store := (keeps store).

(** A round of the merge loop leaves the local array [l] alone on the
    candidate [c], whatever the flag. *)
Definition settled (step : value -> list value * bool -> result (list value * bool))
  (l : list value) (c : value) : Prop :=
  forall u, step c (l, u) = Ok (l, u).

(** ** Pages to run the handlers on

    Pages over the codec [parsed_text]: the store, what [localStorage]
    holds, the text fields of the form.  The two lists show their ["all"]
    entry. *)

Definition page_of (qs : list value) (stored : option (option value))
  (selected : option string) (text category : string) : @page parsed_text :=
  {| quotes := qs;
     ls_quotes := stored;
     ls_selectedCategory := selected;
     ss_lastQuote := None;
     categorySelect := select_all "All";
     categoryFilter := select_all "All Categories";
     quoteDisplay := Initial;
     newQuoteText := text;
     newQuoteCategory := category;
     importFile := "";
     alerts := [];
     notifications := [] |}.

Definition quote (text category : string) : value :=
  mk_quote (Some (JStr text)) (Some (JStr category)).

(** The user picks [category] in the filter list; [filterQuotes] is what
    then shows the view. *)
Definition pick_filter {J : JSON} (category : string) (s : page) : page :=
  set_categoryFilter (select_set_value category (categoryFilter s)) s.

(** The options [populateCategories] appends for the categories [cats]. *)
Definition category_option (cat : string) : option_el :=
  {| opt_value := cat; opt_label := capitalize cat |}.

Definition append_all (cats : list string) (sel : select) : select :=
  fold_left (fun sel cat => appendChild (category_option cat) sel) cats sel.

(** A response of the remote endpoint with the given body. *)
Definition served (body : value) : result response :=
  Ok {| res_ok := true; res_status := "200"; res_json := Ok body |}.

Definition post (title : value) : value := JObj [("title", title)].

(** ** Vocabulary of the further properties *)

(** The categories of the quotes [qs] are the strings [cats], in order:
    no quote is [null] and every [category] is a string. *)
Definition string_categories (qs : list value) (cats : list string) : Prop :=
  map_r (fun q => get q "category") qs
  = Ok (map (fun c => Some (JStr c)) cats).

(** [q.category === selected], false where the read throws. *)
Definition has_category (selected : string) (q : value) : bool :=
  match get q "category" with
  | Ok c => strict_eq c (Some (JStr selected))
  | Throw _ => false
  end.

(** The text and category a quote is shown with. *)
Definition entry (q : value) : jsval * jsval :=
  match q with
  | JObj fields => (lookup_field "text" fields, lookup_field "category" fields)
  | _ => (undefined, undefined)
  end.


(** An element of an imported file with a string text and a string
    category, as the file format has them. *)
Definition string_quote (q : value) : Prop :=
  exists t c, q = quote t c.

(** The view [filterQuotes] lists for the value [selected] of the filter
    list. *)
Definition listed_view (selected : string) (qs : list value) : list value :=
  if String.eqb selected "all" then qs
  else filter (has_category selected) qs.

(** The page after the category lists were filled with [cats] and the whole
    store was listed: what [populateCategories(); filterQuotes()] leaves
    when they complete. *)
Definition refreshed {J : JSON} (cats : list string) (empty : string)
  (s : page) : page :=
  set_quoteDisplay
    (if (List.length (quotes s) =? 0)%nat then Message empty
     else QuoteList (map entry (quotes s)))
    (set_ls_selectedCategory (Some "all")
       (set_categoryFilter (append_all cats (select_all "All Categories"))
          (set_categorySelect (append_all cats (select_all "All")) s))).

(** The page once the store holds [qs], in memory and persisted. *)
Definition with_store {J : JSON} (qs : list value) (s : page) : page :=
  set_ls_quotes (Some (JSON_stringify (JArr qs))) (set_quotes qs s).



(** The request of a synchronisation failed with the error [e]: it was
    rejected, the response was not [ok], or its body did not parse or was
    not an array of records. *)
Definition fetch_fails (fetched : result response) (e : exn) : Prop :=
  fetched = Throw e
  \/ exists res,
       fetched = Ok res
       /\ ((res_ok res = false
            /\ e = Error ("HTTP error! status: " ++ res_status res)%string)
           \/ (res_ok res = true
               /\ (res_json res = Throw e
                   \/ exists body,
                        res_json res = Ok body /\ map_posts body = Throw e))).

(** ** Values, strings and arrays *)

Lemma strict_eq_refl (v : jsval) : primitive v = true -> strict_eq v v = true.
Proof.
  destruct v as [[| b | n | s | l | f] |]; simpl; intros H;
    try discriminate; try reflexivity.
  - apply Bool.eqb_reflx.
  - apply Z.eqb_refl.
  - apply String.eqb_refl.
Qed.

Lemma get_mk_quote_text (t c : jsval) : get (mk_quote t c) "text" = Ok t.
Proof. destruct t, c; reflexivity. Qed.

Lemma get_mk_quote_category (t c : jsval) :
  get (mk_quote t c) "category" = Ok c.
Proof. destruct t, c; reflexivity. Qed.




Section Arrays.
Context {A : Type} (f : A -> result bool).

Lemma some_app_true (l l' : list A) :
  some f l = Ok true -> some f (l ++ l') = Ok true.
Proof.
  induction l as [| x l IH]; simpl; [discriminate |].
  destruct (f x) as [[|] | e]; auto.
Qed.

Lemma some_app_false (l l' : list A) :
  some f l = Ok false -> some f (l ++ l') = some f l'.
Proof.
  induction l as [| x l IH]; simpl; [reflexivity |].
  destruct (f x) as [[|] | e]; auto; discriminate.
Qed.

Lemma some_true_In (l : list A) :
  some f l = Ok true -> exists x, In x l /\ f x = Ok true.
Proof.
  induction l as [| x l IH]; simpl; [discriminate |].
  destruct (f x) as [[|] | e] eqn:E; intros H.
  - exists x; auto.
  - destruct (IH H) as (y & Hy & Hf). exists y; auto.
  - discriminate.
Qed.

Lemma some_false_In (l : list A) :
  some f l = Ok false -> forall x, In x l -> f x = Ok false.
Proof.
  induction l as [| x l IH]; simpl; [contradiction |].
  destruct (f x) as [[|] | e] eqn:E; intros H y [<- | Hy];
    try discriminate; auto.
Qed.

End Arrays.

(** ** Handlers that leave a part of the page alone *)

Section Frame.
Context {J : JSON} {X : Type} (part : page -> X).

Lemma keeps_ret {A : Type} (a : A) : keeps part (ret a).
Proof. intros s; reflexivity. Qed.

Lemma keeps_throwM {A : Type} (e : exn) : keeps part (@throwM J A e).
Proof. intros s; reflexivity. Qed.

Lemma keeps_lift {A : Type} (r : result A) : keeps part (lift r).
Proof. intros s; reflexivity. Qed.

Lemma keeps_gets {A : Type} (f : page -> A) : keeps part (gets f).
Proof. intros s; reflexivity. Qed.

Lemma keeps_modify (f : page -> page) :
  (forall s, part (f s) = part s) -> keeps part (modify f).
Proof. intros H s; apply H. Qed.

Lemma keeps_bind {A B : Type} (m : M A) (k : A -> M B) :
  keeps part m -> (forall a, keeps part (k a)) -> keeps part (bind m k).
Proof.
  intros Hm Hk s. unfold bind. specialize (Hm s).
  destruct (m s) as [s' [a | e]]; simpl in *.
  - rewrite Hk. exact Hm.
  - exact Hm.
Qed.

Lemma keeps_try_catch {A : Type} (m : M A) (h : exn -> M A) :
  keeps part m -> (forall e, keeps part (h e)) ->
  keeps part (try_catch m h).
Proof.
  intros Hm Hh s. unfold try_catch. specialize (Hm s).
  destruct (m s) as [s' [a | e]]; simpl in *.
  - exact Hm.
  - rewrite Hh. exact Hm.
Qed.

Lemma keeps_forEach {A : Type} (f : A -> M unit) (l : list A) :
  (forall a, keeps part (f a)) -> keeps part (forEach f l).
Proof.
  intros Hf. induction l as [| x l IH]; simpl.
  - apply keeps_ret.
  - apply keeps_bind; auto.
Qed.

Lemma keeps_if {A : Type} (b : bool) (m1 m2 : M A) :
  keeps part m1 -> keeps part m2 -> keeps part (if b then m1 else m2).
Proof. destruct b; auto. Qed.

End Frame.

Create HintDb keeps.

#[local] Hint Resolve keeps_ret keeps_throwM keeps_lift keeps_gets
  keeps_forEach keeps_try_catch keeps_if : keeps.

Ltac keeps_step :=
  first
    [ solve [ auto with keeps ]
    | apply keeps_modify; intros ?; reflexivity
    | apply keeps_bind; [| intros ? ] ].

Ltac keeps := repeat keeps_step.

(** Rewrites the store after a handler that keeps it to the store before. *)
Ltac store_kept :=
  lazymatch goal with
  | |- context [store (fst (?m ?st))] =>
      let K := fresh "K" in
      assert (K : keeps store m) by keeps;
      rewrite (K st); clear K
  end.

Section FrameScripts.
Context {J : JSON}.

Lemma script_showNotification_keeps (msg : string) :
  keeps_store (ScriptJs.showNotification msg).
Proof. unfold ScriptJs.showNotification. keeps. Qed.

Lemma script_alert_keeps (msg : string) : keeps_store (ScriptJs.alert msg).
Proof. unfold ScriptJs.alert. keeps. Qed.

Lemma script_populateCategories_keeps :
  keeps_store ScriptJs.populateCategories.
Proof.
  unfold ScriptJs.populateCategories. keeps.
  apply keeps_forEach. intros cat. unfold ScriptJs.add_category.
  destruct cat as [[] |]; keeps.
Qed.

Lemma script_filterQuotes_keeps : keeps_store ScriptJs.filterQuotes.
Proof.
  unfold ScriptJs.filterQuotes. keeps.
  apply keeps_if; keeps.
Qed.

Lemma part002_showNotification_keeps (msg : string) :
  keeps_store (Part002.showNotification msg).
Proof. unfold Part002.showNotification. keeps. Qed.

Lemma part002_populateCategories_keeps :
  keeps_store Part002.populateCategories.
Proof.
  unfold Part002.populateCategories. keeps.
  apply keeps_forEach. intros cat. unfold Part002.add_category. keeps.
Qed.

Lemma part002_filterQuotes_keeps : keeps_store Part002.filterQuotes.
Proof.
  unfold Part002.filterQuotes. keeps.
  apply keeps_if; keeps.
Qed.

End FrameScripts.

#[local] Hint Resolve script_showNotification_keeps script_alert_keeps
  script_populateCategories_keeps script_filterQuotes_keeps
  part002_showNotification_keeps part002_populateCategories_keeps
  part002_filterQuotes_keeps : keeps.

Section StoreAfter.
Context {J : JSON}.

Lemma store_bind_keeps {A B : Type} (m : M A) (k : A -> M B) (s : page) :
  (forall a, keeps_store (k a)) ->
  store (fst (bind m k s)) = store (fst (m s)).
Proof.
  intros Hk. unfold bind.
  destruct (m s) as [s' [a | e]]; simpl; [apply Hk | reflexivity].
Qed.

Lemma store_try_catch_keeps {A : Type} (m : M A) (h : exn -> M A) (s : page) :
  (forall e, keeps_store (h e)) ->
  store (fst (try_catch m h s)) = store (fst (m s)).
Proof.
  intros Hh. unfold try_catch.
  destruct (m s) as [s' [a | e]]; simpl; [reflexivity | apply Hh].
Qed.

Lemma store_eq (s s' : page) :
  store s' = store s <-> quotes s' = quotes s /\ ls_quotes s' = ls_quotes s.
Proof.
  unfold store. split.
  - intros H; inversion H; auto.
  - intros [-> ->]; reflexivity.
Qed.

End StoreAfter.

(** ** Adding a quote ([script.js]) *)

Section AddQuote.
Context {J : JSON}.




End AddQuote.


(** ** Adding, then filtering ([script.js]) *)

Section AddThenFilter.
Context {J : JSON}.

(** C6 -- On a page whose store holds the one quote
    ["The best way..."] / ["inspiration"], [addQuote] with the form filled
    with ["Test quote"] and ["Test"], followed by the view of category
    ["test"], gives exactly one entry: text ["Test quote"], category
    ["test"].  The same shows on the page once ["test"] is picked in the
    filter list. *)
Theorem add_then_filter_test (s : page) :
  quotes s = [quote "The best way..." "inspiration"] ->
  newQuoteText s = "Test quote" ->
  newQuoteCategory s = "Test" ->
  filteredQuotes "test" (quotes (run ScriptJs.addQuote s))
  = Ok [quote "Test quote" "test"]
  /\ quoteDisplay
       (run ScriptJs.filterQuotes (pick_filter "test" (run ScriptJs.addQuote s)))
     = QuoteList [(Some (JStr "Test quote"), Some (JStr "test"))].
Proof.
  destruct s; simpl; intros -> -> ->.
  split; vm_compute; reflexivity.
Qed.

End AddThenFilter.

Lemma add_then_filter_test_witness :
  filteredQuotes "test"
    (quotes (run ScriptJs.addQuote
               (page_of [quote "The best way..." "inspiration"] None None
                        "Test quote" "Test")))
  = Ok [quote "Test quote" "test"]
  /\ quoteDisplay
       (run ScriptJs.filterQuotes
            (pick_filter "test"
               (run ScriptJs.addQuote
                  (page_of [quote "The best way..." "inspiration"] None None
                           "Test quote" "Test"))))
     = QuoteList [(Some (JStr "Test quote"), Some (JStr "test"))].
Proof.
  apply (add_then_filter_test
           (page_of [quote "The best way..." "inspiration"] None None
                    "Test quote" "Test"));
    reflexivity.
Defined.

(** ** A random quote of the view ([script.js]) *)



Section RandomQuote.
Context {J : JSON}.


End RandomQuote.


(** ** Unfolding handlers *)

Section Unfolding.
Context {J : JSON}.

Lemma bind_lift {A B : Type} (r : result A) (k : A -> M B) (s : page) :
  bind (lift r) k s
  = match r with
    | Ok a => k a s
    | Throw e => (s, Throw e)
    end.
Proof. destruct r; reflexivity. Qed.

Lemma bind_gets {A B : Type} (f : page -> A) (k : A -> M B) (s : page) :
  bind (gets f) k s = k (f s) s.
Proof. reflexivity. Qed.

Lemma bind_modify {B : Type} (f : page -> page) (k : unit -> M B) (s : page) :
  bind (modify f) k s = k tt (f s).
Proof. reflexivity. Qed.

Lemma bind_throwM {A B : Type} (e : exn) (k : A -> M B) (s : page) :
  bind (throwM e) k s = (s, Throw e).
Proof. reflexivity. Qed.

End Unfolding.

(** ** Import and export ([script.js]) *)

Section ScriptImport.
Context {J : JSON}.

(** An array is appended whole and the result persisted, whatever the
    refresh of the lists and of the display does afterwards. *)
Lemma script_import_array (s : page) (content : json_text) (l : list value) :
  JSON_parse content = Ok (JArr l) ->
  store (run (ScriptJs.importFromJsonFile (Some content)) s)
  = (quotes s ++ l, Some (JSON_stringify (JArr (quotes s ++ l)))).
Proof.
  intros Hp. unfold run, ScriptJs.importFromJsonFile.
  rewrite store_try_catch_keeps by (intros; keeps).
  rewrite bind_lift, Hp, bind_modify.
  rewrite store_bind_keeps by (intros; keeps).
  reflexivity.
Qed.


(** C5 -- The file written by [exportQuotes], imported on a page whose
    store is empty, gives back the exported sequence: the same quotes in the
    same order, hence the same set of [(text, category)] records.  The
    imported sequence is persisted. *)
Theorem export_import_roundtrip (s e : page) :
  quotes e = [] ->
  exists file,
    ScriptJs.exportQuotes s = (s, Ok file)
    /\ quotes (run (ScriptJs.importFromJsonFile (Some file)) e) = quotes s
    /\ (forall r,
          In r (records (quotes (run (ScriptJs.importFromJsonFile (Some file)) e)))
          <-> In r (records (quotes s)))
    /\ persisted_ok (run (ScriptJs.importFromJsonFile (Some file)) e).
Proof.
  intros He. exists (JSON_stringify_pretty (JArr (quotes s))).
  pose proof (script_import_array e _ (quotes s)
                (JSON_parse_stringify_pretty (JArr (quotes s)))) as H.
  rewrite He in H. cbn [app] in H. apply pair_equal_spec in H.
  destruct H as [Hq Hl].
  split; [reflexivity | split; [exact Hq | split]].
  - intros r. rewrite Hq. reflexivity.
  - unfold persisted_ok. rewrite Hl, Hq. reflexivity.
Qed.

End ScriptImport.

Lemma export_import_roundtrip_witness :
  exists file,
    ScriptJs.exportQuotes (page_of ScriptJs.defaults None None "" "")
    = (page_of ScriptJs.defaults None None "" "", Ok file)
    /\ quotes (run (ScriptJs.importFromJsonFile (Some file))
                   (page_of [] None None "" ""))
       = ScriptJs.defaults.
Proof.
  destruct (export_import_roundtrip
              (page_of ScriptJs.defaults None None "" "")
              (page_of [] None None "" "") eq_refl)
    as (file & Hx & Hq & _).
  exists file. split; [exact Hx | exact Hq].
Defined.

(** ** The merge loop *)

(** A run of the loop is the sequence of its rounds: the candidate [c] is
    met with the accumulator the candidates before it have produced. *)
Lemma forEach_r_round {A S : Type} (f : A -> S -> result S)
  (pre post : list A) (c : A) (acc out : S) :
  forEach_r f (pre ++ c :: post) acc = Ok out ->
  exists before after,
    forEach_r f pre acc = Ok before
    /\ f c before = Ok after
    /\ forEach_r f post after = Ok out.
Proof.
  revert acc. induction pre as [| x pre IH]; intros acc H; simpl in H.
  - destruct (f c acc) as [after |] eqn:E; simpl in H; [| discriminate].
    exists acc, after. auto.
  - destruct (f x acc) as [acc' |] eqn:E; simpl in H; [| discriminate].
    destruct (IH acc' H) as (before & after & H1 & H2 & H3).
    exists before, after. simpl. rewrite E. auto.
Qed.

Section MergeLoop.

(** A round either leaves the local array and the flag alone or pushes
    the candidate and raises the flag. *)
Variable step : value -> list value * bool -> result (list value * bool).

Hypothesis step_cases :
  forall c l u l' u',
    step c (l, u) = Ok (l', u') ->
    (l' = l /\ u' = u) \/ (l' = l ++ [c] /\ u' = true).

Lemma loop_adds (cands : list value) :
  forall l u l' u',
    forEach_r step cands (l, u) = Ok (l', u') ->
    exists added,
      l' = l ++ added
      /\ (List.length added <= List.length cands)%nat
      /\ (forall c, In c added -> In c cands)
      /\ ((u' = true /\ added <> []) \/ (u' = u /\ added = [])).
Proof.
  induction cands as [| c rest IH]; simpl; intros l u l' u' H.
  - inversion H; subst. exists [].
    split; [rewrite app_nil_r; reflexivity |].
    split; [simpl; lia |].
    split; [intros c [] | right; auto].
  - destruct (step c (l, u)) as [[l1 u1] | e] eqn:E; simpl in H;
      [| discriminate].
    destruct (IH _ _ _ _ H) as (added & -> & Hlen & Hin & Hu).
    destruct (step_cases _ _ _ _ _ E) as [[-> ->] | [-> ->]].
    + exists added.
      split; [reflexivity |]. split; [lia |]. split; [| exact Hu].
      intros x Hx. right. auto.
    + exists (c :: added). rewrite <- app_assoc. simpl.
      split; [reflexivity |]. split; [lia |]. split.
      * intros x [<- | Hx]; auto.
      * left. split; [| discriminate].
        destruct Hu as [[-> _] | [-> _]]; reflexivity.
Qed.

(** Candidates that a later run over the same list leaves alone. *)
Variable good : value -> Prop.

Hypothesis step_settles :
  forall c l u l' u' ext,
    good c -> Forall good ext ->
    step c (l, u) = Ok (l', u') ->
    settled step (l' ++ ext) c.

Lemma loop_settles (cands : list value) :
  forall l u l' u',
    Forall good cands ->
    forEach_r step cands (l, u) = Ok (l', u') ->
    (exists added, l' = l ++ added /\ Forall good added)
    /\ Forall (settled step l') cands.
Proof.
  induction cands as [| c rest IH]; simpl; intros l u l' u' Hg H.
  - inversion H; subst. split; [| constructor].
    exists []. rewrite app_nil_r. auto.
  - inversion Hg as [| ? ? Hc Hrest]; subst.
    destruct (step c (l, u)) as [[l1 u1] | e] eqn:E; simpl in H;
      [| discriminate].
    destruct (IH _ _ _ _ Hrest H) as [(added & -> & Hadded) Hset].
    split.
    + destruct (step_cases _ _ _ _ _ E) as [[-> ->] | [-> ->]].
      * exists added; auto.
      * exists (c :: added). rewrite <- app_assoc. simpl. auto.
    + constructor; [| exact Hset].
      eapply step_settles; eauto.
Qed.

Lemma loop_settled (cands : list value) (l : list value) (u : bool) :
  Forall (settled step l) cands -> forEach_r step cands (l, u) = Ok (l, u).
Proof.
  induction cands as [| c rest IH]; simpl; intros H; [reflexivity |].
  inversion H as [| ? ? Hc Hrest]; subst.
  rewrite (Hc u). simpl. auto.
Qed.

(** Running the loop again on what it produced changes nothing. *)
Lemma loop_idempotent (cands : list value) :
  forall l u l' u',
    Forall good cands ->
    forEach_r step cands (l, u) = Ok (l', u') ->
    forEach_r step cands (l', false) = Ok (l', false).
Proof.
  intros l u l' u' Hg H. apply loop_settled.
  exact (proj2 (loop_settles cands l u l' u' Hg H)).
Qed.

End MergeLoop.

(** ** The rounds of the two scripts *)

Lemma text_exists_app_true (l ext : list value) (c : value) :
  text_exists l c = Ok true -> text_exists (l ++ ext) c = Ok true.
Proof. apply some_app_true. Qed.

Lemma text_exists_app_false (l ext : list value) (c : value) :
  text_exists l c = Ok false -> text_exists (l ++ ext) c = text_exists ext c.
Proof. apply some_app_false. Qed.

Lemma text_exists_self (ext : list value) (c : value) :
  plain_candidate c -> text_exists (c :: ext) c = Ok true.
Proof.
  intros [[title ->] Hp]. unfold text_exists. cbn [some].
  rewrite get_mk_quote_text. cbn [rbind].
  rewrite strict_eq_refl; [reflexivity |].
  apply Hp. apply get_mk_quote_text.
Qed.


Lemma text_exists_same_text (l : list value) (c : value) (found : bool) :
  text_exists l c = Ok found -> (found = true <-> same_text_in l c).
Proof.
  intros H. split.
  - intros ->. apply some_true_In in H. destruct H as (q & Hin & Hq).
    destruct (get q "text") as [a |] eqn:Ea; simpl in Hq; [| discriminate].
    destruct (get c "text") as [b |] eqn:Eb; simpl in Hq; [| discriminate].
    exists q, a, b. repeat split; auto. inversion Hq; reflexivity.
  - intros (q & a & b & Hin & Ea & Eb & Heq).
    destruct found; [reflexivity |].
    pose proof (some_false_In _ _ H q Hin) as Hq. cbv beta in Hq.
    rewrite Ea, Eb in Hq. simpl in Hq. rewrite Heq in Hq. discriminate.
Qed.


Lemma script_step (c : value) (l : list value) (u found : bool) :
  text_exists l c = Ok found ->
  ScriptJs.merge_step c (l, u)
  = Ok (if found then (l, u) else (l ++ [c], true)).
Proof.
  intros H. unfold ScriptJs.merge_step. rewrite H. destruct found; reflexivity.
Qed.

Lemma script_step_cases (c : value) (l : list value) (u : bool)
  (l' : list value) (u' : bool) :
  ScriptJs.merge_step c (l, u) = Ok (l', u') ->
  (l' = l /\ u' = u) \/ (l' = l ++ [c] /\ u' = true).
Proof.
  unfold ScriptJs.merge_step.
  destruct (text_exists l c) as [[|] | e]; simpl; intros H; inversion H; auto.
Qed.

Lemma script_step_settles (c : value) (l : list value) (u : bool)
  (l' : list value) (u' : bool) (ext : list value) :
  plain_candidate c -> Forall plain_candidate ext ->
  ScriptJs.merge_step c (l, u) = Ok (l', u') ->
  settled ScriptJs.merge_step (l' ++ ext) c.
Proof.
  intros Hc Hext H v.
  unfold ScriptJs.merge_step in H.
  destruct (text_exists l c) as [[|] | e] eqn:E; simpl in H; inversion H; subst.
  - apply (script_step c (l' ++ ext) v true).
    apply text_exists_app_true. exact E.
  - apply (script_step c ((l ++ [c]) ++ ext) v true).
    rewrite <- app_assoc. rewrite text_exists_app_false by exact E.
    apply text_exists_self. exact Hc.
Qed.

(** The test of [part_002] on a candidate of a run: its category is
    ["server"], so only its text counts. *)
Lemma accepts_server_quote (found : bool) (title : jsval) :
  Part002.accepts found (mk_quote title (Some (JStr "server")))
  = Ok (negb found && truthy title).
Proof.
  unfold Part002.accepts. destruct found; cbn [negb andb]; [reflexivity |].
  rewrite get_mk_quote_text. cbn [rbind].
  destruct (truthy title); [| reflexivity].
  rewrite get_mk_quote_category. reflexivity.
Qed.

Lemma part002_step (title : jsval) (l : list value) (u found : bool) :
  text_exists l (mk_quote title (Some (JStr "server"))) = Ok found ->
  Part002.merge_step (mk_quote title (Some (JStr "server"))) (l, u)
  = Ok (if found || negb (truthy title) then (l, u)
        else (l ++ [mk_quote title (Some (JStr "server"))], true)).
Proof.
  intros H. unfold Part002.merge_step. rewrite H. cbn [rbind].
  rewrite accepts_server_quote. cbn [rbind].
  destruct found, (truthy title); reflexivity.
Qed.

Lemma part002_step_cases (c : value) (l : list value) (u : bool)
  (l' : list value) (u' : bool) :
  Part002.merge_step c (l, u) = Ok (l', u') ->
  (l' = l /\ u' = u) \/ (l' = l ++ [c] /\ u' = true).
Proof.
  unfold Part002.merge_step.
  destruct (text_exists l c) as [found | e]; simpl; [| discriminate].
  destruct (Part002.accepts found c) as [[|] | e]; simpl;
    intros H; inversion H; auto.
Qed.


(** ** The candidates of a run *)

Lemma map_r_Forall2 {A B : Type} (f : A -> result B) (l : list A) :
  forall l', map_r f l = Ok l' -> Forall2 (fun x y => f x = Ok y) l l'.
Proof.
  induction l as [| x l IH]; simpl; intros l' H.
  - inversion H. constructor.
  - destruct (f x) as [y |] eqn:E; simpl in H; [| discriminate].
    destruct (map_r f l) as [r |]; simpl in H; [| discriminate].
    inversion H; subst. constructor; auto.
Qed.

Lemma map_posts_shape (body : value) (cands : list value) :
  map_posts body = Ok cands ->
  (List.length cands <= 5)%nat /\ Forall server_quote cands.
Proof.
  destruct body as [| b | n | t | l | f]; unfold map_posts;
    try discriminate.
  intros H. apply map_r_Forall2 in H. split.
  - pose proof (Forall2_length H) as E.
    pose proof (firstn_le_length 5 l) as F. lia.
  - clear -H. induction H as [| post c ps cs Hc _ IH]; constructor; auto.
    destruct (get post "title") as [title |]; simpl in Hc; [| discriminate].
    inversion Hc. exists title. reflexivity.
Qed.

Lemma map_posts_plain (l : list value) (cands : list value) :
  map_posts (JArr l) = Ok cands ->
  Forall (fun post => forall t, get post "title" = Ok t -> primitive t = true)
         (firstn 5 l) ->
  Forall plain_candidate cands.
Proof.
  unfold map_posts. intros H Hp. apply map_r_Forall2 in H.
  induction H as [| post c ps cs Hc _ IH]; constructor.
  - inversion Hp as [| ? ? Hpost _]; subst.
    destruct (get post "title") as [title |] eqn:E; simpl in Hc;
      [| discriminate].
    inversion Hc; subst. split; [exists title; reflexivity |].
    intros t Ht. rewrite get_mk_quote_text in Ht. inversion Ht; subst.
    apply Hpost. reflexivity.
  - apply IH. inversion Hp; assumption.
Qed.

Lemma script_candidates_shape (fetched : result response) (cands : list value) :
  script_candidates fetched = Ok cands ->
  (List.length cands <= 5)%nat /\ Forall server_quote cands
  /\ (primitive_titles fetched -> Forall plain_candidate cands).
Proof.
  unfold script_candidates. destruct fetched as [res | e]; simpl;
    [| discriminate].
  destruct (res_json res) as [body | e] eqn:Eb; simpl; [| discriminate].
  intros H. destruct (map_posts_shape _ _ H) as [Hlen Hsq].
  split; [exact Hlen | split; [exact Hsq |]].
  intros Hp. destruct body as [| b | n | t | l | f]; try discriminate.
  apply (map_posts_plain l cands H). exact (Hp res l eq_refl Eb).
Qed.

Lemma part002_candidates_shape (fetched : result response) :
  (List.length (part002_candidates fetched) <= 5)%nat
  /\ Forall server_quote (part002_candidates fetched)
  /\ (primitive_titles fetched ->
      Forall plain_candidate (part002_candidates fetched)).
Proof.
  unfold part002_candidates.
  assert (Hnil : (List.length (@nil value) <= 5)%nat
                 /\ Forall server_quote []
                 /\ (primitive_titles fetched -> Forall plain_candidate []))
    by (simpl; repeat split; auto; lia).
  destruct fetched as [res | e]; [| exact Hnil].
  destruct (negb (res_ok res)); [exact Hnil |].
  destruct (res_json res) as [body | e] eqn:Eb; [| exact Hnil].
  destruct (map_posts body) as [cands | e] eqn:Em; [| exact Hnil].
  destruct (map_posts_shape _ _ Em) as [Hlen Hsq].
  split; [exact Hlen | split; [exact Hsq |]].
  intros Hp. destruct body as [| b | n | t | l | f]; try discriminate.
  apply (map_posts_plain l cands Em). exact (Hp res l eq_refl Eb).
Qed.

(** ** What a synchronisation leaves in the store *)

Section SyncStore.
Context {J : JSON}.

Lemma script_sync_store (fetched : result response) (s : page) :
  store (run (ScriptJs.syncWithServer fetched) s)
  = store_after_sync s (script_sync_outcome fetched (ls_quotes s)).
Proof.
  unfold run, ScriptJs.syncWithServer.
  rewrite store_try_catch_keeps by (intros; keeps).
  unfold script_sync_outcome, script_candidates.
  rewrite bind_lift. destruct fetched as [res | e]; [| reflexivity].
  cbn [rbind]. rewrite bind_lift.
  destruct (res_json res) as [body | e]; [| reflexivity].
  cbn [rbind]. rewrite bind_lift.
  destruct (map_posts body) as [cands | e]; [| reflexivity].
  cbn [rbind]. rewrite bind_gets, bind_lift.
  destruct (parse_item (ls_quotes s)) as [parsed | e]; [| reflexivity].
  cbn [rbind]. rewrite bind_lift.
  destruct (ScriptJs.merge_into parsed cands) as [[l [|]] | e];
    try reflexivity.
  rewrite bind_modify, bind_modify. store_kept.
  reflexivity.
Qed.

(** [fetchQuotesFromServer] always returns, with candidates or none, and
    touches only the notification box. *)
Lemma part002_fetch (fetched : result response) (s : page) :
  exists s',
    Part002.fetchQuotesFromServer fetched s
    = (s', Ok (part002_candidates fetched))
    /\ store s' = store s.
Proof.
  unfold Part002.fetchQuotesFromServer, try_catch, part002_candidates.
  unfold Part002.showNotification at 1. rewrite bind_modify.
  rewrite bind_lift. destruct fetched as [res | e].
  - destruct (negb (res_ok res)).
    + rewrite bind_throwM. eexists; split; reflexivity.
    + unfold ret at 1. unfold bind at 1. rewrite bind_lift.
      destruct (res_json res) as [body | e].
      * rewrite bind_lift. destruct (map_posts body) as [cands | e].
        -- eexists; split; reflexivity.
        -- eexists; split; reflexivity.
      * eexists; split; reflexivity.
  - eexists; split; reflexivity.
Qed.

Lemma part002_sync_store (fetched : result response) (s : page) :
  store (run (Part002.syncWithServer fetched) s)
  = store_after_sync s (part002_sync_outcome fetched (ls_quotes s)).
Proof.
  unfold run, Part002.syncWithServer.
  unfold Part002.showNotification at 1. rewrite bind_modify.
  destruct (part002_fetch fetched
              (set_notifications ("Syncing with server..." :: notifications s) s))
    as (s1 & Hf & Hs1).
  unfold bind at 1. rewrite Hf.
  apply store_eq in Hs1. destruct Hs1 as [Hq Hl]. simpl in Hq, Hl.
  unfold part002_sync_outcome, store_after_sync.
  rewrite bind_gets, bind_lift, Hl.
  destruct (parse_item (ls_quotes s)) as [parsed | e].
  - cbn [rbind]. rewrite bind_lift.
    destruct (Part002.merge_into parsed (part002_candidates fetched))
      as [[l [|]] | e].
    + rewrite bind_modify. unfold Part002.saveQuotes at 1.
      rewrite bind_modify. store_kept.
      unfold store. simpl. reflexivity.
    + unfold store. simpl. rewrite Hq, Hl. reflexivity.
    + unfold store. simpl. rewrite Hq, Hl. reflexivity.
  - unfold store. simpl. rewrite Hq, Hl. reflexivity.
Qed.

End SyncStore.

(** ** Synchronisation: what is appended *)

Section SyncAppends.
Context {J : JSON}.

Lemma persisted_ok_stored (s : page) (local : list value) :
  persisted_ok s -> stored_quotes s local -> local = quotes s.
Proof.
  unfold persisted_ok, stored_quotes. intros Hp (parsed & Hparse & Harr).
  rewrite Hp in Hparse. simpl in Hparse.
  rewrite JSON_parse_stringify in Hparse. inversion Hparse; subst.
  simpl in Harr. inversion Harr. reflexivity.
Qed.

Lemma store_after_sync_same (s : page) (o : result (list value * bool)) :
  (forall l, o <> Ok (l, true)) -> store_after_sync s o = store s.
Proof.
  intros H. destruct o as [[l [|]] | e]; try reflexivity.
  exfalso. exact (H l eq_refl).
Qed.

Lemma script_merge_into_array (parsed : value) (cands l' : list value) :
  ScriptJs.merge_into parsed cands = Ok (l', true) ->
  exists l0,
    (if truthy (Some parsed) then parsed else JArr []) = JArr l0
    /\ ScriptJs.merge cands (l0, false) = Ok (l', true).
Proof.
  unfold ScriptJs.merge_into.
  destruct (if truthy (Some parsed) then parsed else JArr [])
    as [| b | n | t | l0 | f]; try (destruct cands; discriminate).
  intros H. exists l0. auto.
Qed.

Lemma part002_merge_into_array (parsed : value) (cands l' : list value) :
  Part002.merge_into parsed cands = Ok (l', true) ->
  exists l0,
    (if truthy (Some parsed) then parsed else JArr []) = JArr l0
    /\ Part002.merge cands (l0, false) = Ok (l', true).
Proof.
  unfold Part002.merge_into.
  destruct (if truthy (Some parsed) then parsed else JArr [])
    as [| b | n | t | l0 | f]; try (destruct cands; discriminate).
  intros H. exists l0. auto.
Qed.

Lemma server_quote_category (c : value) : server_quote c -> server_category c.
Proof. intros [title ->]. apply get_mk_quote_category. Qed.

(** From what the loop computed to what the run appended. *)
Lemma sync_appended_intro (s s' : page) (cands : list value)
  (o : result (list value * bool)) :
  store s' = store_after_sync s o ->
  (List.length cands <= 5)%nat -> Forall server_quote cands ->
  (forall l', o = Ok (l', true) ->
     exists l0 added,
       stored_quotes s l0 /\ l' = l0 ++ added /\ added <> []
       /\ (List.length added <= List.length cands)%nat
       /\ (forall c, In c added -> In c cands)) ->
  exists added, sync_appended s s' added.
Proof.
  intros Hs Hlen Hsq Ho.
  destruct o as [[l' [|]] | e].
  - destruct (Ho l' eq_refl) as (l0 & added & Hst & -> & Hne & Hla & Hin).
    exists added. unfold sync_appended.
    simpl in Hs. apply pair_equal_spec in Hs. destruct Hs as [Hq _].
    split; [lia | split; [| split]].
    + apply Forall_forall. intros c Hc. apply server_quote_category.
      rewrite Forall_forall in Hsq. auto.
    + right. split; [exact Hne |]. exists l0. auto.
    + intros Hp. rewrite Hq. f_equal. apply persisted_ok_stored; assumption.
  - exists []. unfold sync_appended. simpl in Hs.
    split; [simpl; lia | split; [constructor | split]].
    + left; auto.
    + intros _. rewrite app_nil_r. apply store_eq in Hs. tauto.
  - exists []. unfold sync_appended. simpl in Hs.
    split; [simpl; lia | split; [constructor | split]].
    + left; auto.
    + intros _. rewrite app_nil_r. apply store_eq in Hs. tauto.
Qed.

(** C10 -- A run of [syncWithServer], in [script.js] and in [part_002],
    appends at most five quotes, each of category ["server"]: the
    candidates are mapped from the first five remote records only.  The
    quotes are appended to the array read from [localStorage], which is the
    sequence in memory whenever the two are reconciled. *)
Theorem sync_adds_at_most_five (s : page) (fetched : result response) :
  (exists added,
     sync_appended s (run (ScriptJs.syncWithServer fetched) s) added)
  /\ (exists added,
        sync_appended s (run (Part002.syncWithServer fetched) s) added).
Proof.
  split.
  - destruct (script_candidates fetched) as [cands | e] eqn:Ec.
    + destruct (script_candidates_shape _ _ Ec) as (Hlen & Hsq & _).
      apply (sync_appended_intro s _ cands _ (script_sync_store fetched s));
        auto.
      unfold script_sync_outcome. rewrite Ec. cbn [rbind].
      intros l' Ho.
      destruct (parse_item (ls_quotes s)) as [parsed | e] eqn:Ep;
        [| discriminate].
      cbn [rbind] in Ho.
      destruct (script_merge_into_array _ _ _ Ho) as (l0 & Harr & Hm).
      destruct (loop_adds _ script_step_cases _ _ _ _ _ Hm)
        as (added & -> & Hla & Hin & [[_ Hne] | [Hu _]]); [| discriminate].
      exists l0, added. repeat split; auto.
      exists parsed. auto.
    + apply (sync_appended_intro s _ [] _ (script_sync_store fetched s)).
      * simpl; lia.
      * constructor.
      * unfold script_sync_outcome. rewrite Ec. discriminate.
  - destruct (part002_candidates_shape fetched) as (Hlen & Hsq & _).
    apply (sync_appended_intro s _ (part002_candidates fetched) _
             (part002_sync_store fetched s)); auto.
    unfold part002_sync_outcome. intros l' Ho.
    destruct (parse_item (ls_quotes s)) as [parsed | e] eqn:Ep;
      [| discriminate].
    cbn [rbind] in Ho.
    destruct (part002_merge_into_array _ _ _ Ho) as (l0 & Harr & Hm).
    destruct (loop_adds _ part002_step_cases _ _ _ _ _ Hm)
      as (added & -> & Hla & Hin & [[_ Hne] | [Hu _]]); [| discriminate].
    exists l0, added. repeat split; auto.
    exists parsed. auto.
Qed.

End SyncAppends.

(** ** Synchronisation: running it twice *)

Section SyncTwice.
Context {J : JSON}.


Lemma script_outcome_stable (fetched : result response)
  (item : option json_text) (l' : list value) :
  primitive_titles fetched ->
  script_sync_outcome fetched item = Ok (l', true) ->
  script_sync_outcome fetched (Some (JSON_stringify (JArr l')))
  = Ok (l', false).
Proof.
  intros Hp. unfold script_sync_outcome.
  destruct (script_candidates fetched) as [cands | e] eqn:Ec;
    [| discriminate].
  destruct (script_candidates_shape _ _ Ec) as (_ & _ & Hplain).
  cbn [rbind]. destruct (parse_item item) as [parsed | e]; [| discriminate].
  cbn [rbind]. intros Ho.
  destruct (script_merge_into_array _ _ _ Ho) as (l0 & _ & Hm).
  cbn [parse_item]. rewrite JSON_parse_stringify.
  cbn [rbind]. unfold ScriptJs.merge_into. cbn [truthy].
  apply (loop_idempotent ScriptJs.merge_step script_step_cases
           plain_candidate script_step_settles cands l0 false l' true);
    auto.
Qed.



End SyncTwice.

Lemma primitive_titles_strings :
  primitive_titles (served (JArr [post (JStr "A"); post (JStr "B")])).
Proof.
  intros res l H1 H2. inversion H1; subst. simpl in H2.
  inversion H2; subst. simpl.
  repeat constructor; intros t Ht; inversion Ht; reflexivity.
Qed.


(** ** Synchronisation: which candidates are skipped *)

(** C1, as amended -- In a round of the merge loop that completes, the
    candidate is skipped exactly when some quote of the local array (the
    array read from [localStorage], with what earlier rounds pushed) has a
    text strictly equal to its own; [part_002] also skips a candidate whose
    text is empty or missing.  The category takes no part: a candidate
    whose text matches a quote of another category is skipped. *)
Theorem sync_skips_by_text (c : value) (localQuotes : list value)
  (updated found : bool) :
  server_quote c ->
  text_exists localQuotes c = Ok found ->
  (found = true <-> same_text_in localQuotes c)
  /\ ScriptJs.merge_step c (localQuotes, updated)
     = Ok (if found then (localQuotes, updated)
           else (localQuotes ++ [c], true))
  /\ (forall text,
        get c "text" = Ok text ->
        Part002.merge_step c (localQuotes, updated)
        = Ok (if found || negb (truthy text) then (localQuotes, updated)
              else (localQuotes ++ [c], true))).
Proof.
  intros [title ->] H. split; [| split].
  - apply text_exists_same_text. exact H.
  - apply script_step. exact H.
  - intros text Ht. rewrite get_mk_quote_text in Ht. inversion Ht; subst.
    apply part002_step. exact H.
Qed.

Lemma sync_skips_by_text_witness :
  ScriptJs.merge_step (quote "A" "server") ([quote "A" "x"], false)
  = Ok ([quote "A" "x"], false)
  /\ Part002.merge_step (quote "" "server") ([quote "A" "x"], false)
     = Ok ([quote "A" "x"], false).
Proof.
  split.
  - exact (proj1 (proj2 (sync_skips_by_text
                           (quote "A" "server") [quote "A" "x"] false true
                           (ex_intro _ (Some (JStr "A")) eq_refl) eq_refl))).
  - exact (proj2 (proj2 (sync_skips_by_text
                           (quote "" "server") [quote "A" "x"] false false
                           (ex_intro _ (Some (JStr "")) eq_refl) eq_refl))
                 (Some (JStr "")) eq_refl).
Defined.

(** The rounds of a run that completes: every candidate met a local array,
    the one read from [localStorage] extended by the earlier rounds, on
    which the search for its text came to an answer. *)
Lemma script_run_rounds (pre post : list value) (c : value)
  (local : list value) (out : list value * bool) :
  ScriptJs.merge (pre ++ c :: post) (local, false) = Ok out ->
  exists localQuotes updated found,
    ScriptJs.merge pre (local, false) = Ok (localQuotes, updated)
    /\ text_exists localQuotes c = Ok found
    /\ ScriptJs.merge post
         (if found then (localQuotes, updated) else (localQuotes ++ [c], true))
       = Ok out.
Proof.
  intros H. apply forEach_r_round in H.
  destruct H as ([l u] & after & H1 & H2 & H3).
  destruct (text_exists l c) as [found | e] eqn:E.
  - exists l, u, found. rewrite (script_step c l u found E) in H2.
    inversion H2; subst. auto.
  - unfold ScriptJs.merge_step in H2. rewrite E in H2. discriminate.
Qed.

Lemma part002_run_rounds (pre post : list value) (c : value)
  (local : list value) (out : list value * bool) :
  Part002.merge (pre ++ c :: post) (local, false) = Ok out ->
  exists localQuotes updated found after,
    Part002.merge pre (local, false) = Ok (localQuotes, updated)
    /\ text_exists localQuotes c = Ok found
    /\ Part002.merge_step c (localQuotes, updated) = Ok after
    /\ Part002.merge post after = Ok out.
Proof.
  intros H. apply forEach_r_round in H.
  destruct H as ([l u] & after & H1 & H2 & H3).
  destruct (text_exists l c) as [found | e] eqn:E.
  - exists l, u, found, after. auto.
  - unfold Part002.merge_step in H2. rewrite E in H2. discriminate.
Qed.

(** C1 as first stated fails: the store holds ["A"] under category ["x"],
    the endpoint serves a record titled ["A"].  No quote of the store has
    the candidate's [(text, category)] pair, and the candidate is skipped
    all the same: the round leaves the local array alone in both scripts,
    and both runs end without an error and with the store as it was. *)
Lemma sync_pair_counterexample :
  map_posts (JArr [post (JStr "A")]) = Ok [quote "A" "server"]
  /\ Part002.pair_exists [quote "A" "x"] (quote "A" "server") = Ok false
  /\ ScriptJs.merge_step (quote "A" "server") ([quote "A" "x"], false)
     = Ok ([quote "A" "x"], false)
  /\ Part002.merge_step (quote "A" "server") ([quote "A" "x"], false)
     = Ok ([quote "A" "x"], false)
  /\ ScriptJs.syncWithServer (served (JArr [post (JStr "A")]))
       (page_of [quote "A" "x"] (Some (Some (JArr [quote "A" "x"]))) None "" "")
     = (page_of [quote "A" "x"] (Some (Some (JArr [quote "A" "x"]))) None "" "",
        Ok tt)
  /\ store (run (Part002.syncWithServer (served (JArr [post (JStr "A")])))
                (page_of [quote "A" "x"]
                         (Some (Some (JArr [quote "A" "x"]))) None "" ""))
     = ([quote "A" "x"], Some (Some (JArr [quote "A" "x"])))
  /\ snd (Part002.syncWithServer (served (JArr [post (JStr "A")]))
            (page_of [quote "A" "x"]
                     (Some (Some (JArr [quote "A" "x"]))) None "" ""))
     = Ok tt.
Proof. repeat split; reflexivity. Qed.

(** ** The persisted copy ([script.js]) *)

Section Persisted.
Context {J : JSON}.





End Persisted.

(** ** Restoring the filter *)

Lemma In_insert_sorted (x s : string) (l : list string) :
  In x (insert_sorted s l) -> x = s \/ In x l.
Proof.
  induction l as [| y l IH]; simpl.
  - intros [<- | []]; auto.
  - destruct (String.leb s y); simpl.
    + intros [<- | [<- | H]]; auto.
    + intros [<- | H]; auto. destruct (IH H); auto.
Qed.

Lemma In_sort (x : string) (l : list string) : In x (sort l) -> In x l.
Proof.
  induction l as [| y l IH]; simpl; [auto |].
  intros H. apply In_insert_sorted in H. destruct H as [-> | H]; auto.
Qed.

Lemma In_uniq {A : Type} (same : A -> A -> bool) (x : A) (l : list A) :
  In x (uniq same l) -> In x l.
Proof.
  induction l as [| y l IH]; simpl; [auto |].
  intros [<- | H]; auto. apply filter_In in H. right. apply IH. tauto.
Qed.

Lemma options_append_all (cats : list string) (sel : select) :
  options (append_all cats sel) = options sel ++ map category_option cats.
Proof.
  revert sel. induction cats as [| c cats IH]; intros sel; simpl.
  - rewrite app_nil_r. reflexivity.
  - unfold append_all in IH. rewrite IH. simpl. rewrite <- app_assoc.
    reflexivity.
Qed.

Lemma selectedIndex_append_all (cats : list string) (sel : select) (i : nat) :
  selectedIndex sel = Some i -> selectedIndex (append_all cats sel) = Some i.
Proof.
  revert sel. induction cats as [| c cats IH]; intros sel H; simpl.
  - exact H.
  - apply IH. simpl. rewrite H. reflexivity.
Qed.

(** A list that [populateCategories] has just filled shows ["all"]. *)
Lemma select_value_populated (cats : list string) (label : string) :
  select_value (append_all cats (select_all label)) = "all".
Proof.
  unfold select_value.
  rewrite (selectedIndex_append_all cats (select_all label) 0 eq_refl).
  rewrite options_append_all. reflexivity.
Qed.

Lemma select_set_all (cats : list string) (label : string) :
  select_value (select_set_value "all" (append_all cats (select_all label)))
  = "all".
Proof.
  unfold select_value, select_set_value. simpl.
  rewrite options_append_all. reflexivity.
Qed.

Lemma has_option_populated (saved : string) (cats : list string)
  (label : string) :
  existsb (fun o => String.eqb (opt_value o) saved)
          (options (append_all cats (select_all label))) = true ->
  saved = "all" \/ In saved cats.
Proof.
  rewrite options_append_all. intros H. apply existsb_exists in H.
  destruct H as (o & Hin & Ho). apply String.eqb_eq in Ho.
  simpl in Hin. destruct Hin as [<- | Hin].
  - left. symmetry. exact Ho.
  - right. apply in_map_iff in Hin. destruct Hin as (c & <- & Hc).
    simpl in Ho. subst. exact Hc.
Qed.

Section RestoreFilter.
Context {J : JSON}.

Lemma part002_add_category (cat : string) (s : page) :
  Part002.add_category cat s
  = (set_categoryFilter
       (appendChild (category_option cat) (categoryFilter s))
       (set_categorySelect
          (appendChild (category_option cat) (categorySelect s)) s),
     Ok tt).
Proof. reflexivity. Qed.

Lemma part002_forEach_add (cats : list string) :
  forall s,
    snd (forEach Part002.add_category cats s) = Ok tt
    /\ categoryFilter (fst (forEach Part002.add_category cats s))
       = append_all cats (categoryFilter s)
    /\ ls_selectedCategory (fst (forEach Part002.add_category cats s))
       = ls_selectedCategory s.
Proof.
  induction cats as [| c cats IH]; intros s; cbn [forEach].
  - auto.
  - unfold bind. rewrite part002_add_category.
    match goal with
    | |- context [forEach Part002.add_category cats ?st] =>
        destruct (IH st) as (H1 & H2 & H3)
    end.
    rewrite H1, H2, H3. auto.
Qed.

(** [populateCategories] of [part_002] on a store whose categories are all
    strings: the filter list gets ["all"] and the sorted distinct
    lower-cased categories, and shows ["all"]. *)
Lemma part002_populate (s : page) (cats : list string) :
  map_r (fun q => c <-- get q "category" ;; Part002.lower c) (quotes s)
  = Ok cats ->
  snd (Part002.populateCategories s) = Ok tt
  /\ categoryFilter (fst (Part002.populateCategories s))
     = append_all (sort (uniq String.eqb cats)) (select_all "All Categories")
  /\ ls_selectedCategory (fst (Part002.populateCategories s))
     = ls_selectedCategory s.
Proof.
  intros Hc. unfold Part002.populateCategories.
  rewrite bind_gets, bind_lift, Hc, !bind_modify.
  match goal with
  | |- context [forEach Part002.add_category ?cs ?st] =>
      destruct (part002_forEach_add cs st) as (H1 & H2 & H3)
  end.
  rewrite H1, H2, H3. auto.
Qed.

Lemma script_filterQuotes_keeps_filter :
  keeps categoryFilter ScriptJs.filterQuotes.
Proof.
  unfold ScriptJs.filterQuotes. keeps.
  apply keeps_if; keeps.
Qed.

(** In [script.js] the saved category is assigned as it is: when no option
    of the filter list carries it, the list is left without selection and
    its value reads as the empty string. *)
Lemma script_restoreFilter_stale (s : page) :
  index_of (saved_or_all (ls_selectedCategory s)) (options (categoryFilter s))
  = None ->
  select_value (categoryFilter (run ScriptJs.restoreFilter s)) = "".
Proof.
  intros H. unfold run, ScriptJs.restoreFilter.
  rewrite bind_gets, bind_modify.
  rewrite (script_filterQuotes_keeps_filter _).
  unfold select_value. simpl. rewrite H. reflexivity.
Qed.

Lemma part002_filterQuotes_keeps_filter :
  keeps categoryFilter Part002.filterQuotes.
Proof.
  unfold Part002.filterQuotes. keeps.
  apply keeps_if; keeps.
Qed.

(** In [part_002] the restored filter falls back to ["all"]: when the
    persisted [selectedCategory] is none of the (lower-cased) categories of
    the store, the filter list shows ["all"] after the start-up. *)
Lemma part002_startup_falls_back (s : page) (cats : list string) :
  map_r (fun q => c <-- get q "category" ;; Part002.lower c) (quotes s)
  = Ok cats ->
  ~ In (saved_or_all (ls_selectedCategory s)) cats ->
  select_value (categoryFilter (run Part002.startup s)) = "all".
Proof.
  intros Hc Hn. destruct (part002_populate s cats Hc) as (H1 & H2 & H3).
  unfold run, Part002.startup. unfold bind at 1.
  destruct (Part002.populateCategories s) as [s1 r]. simpl in H1, H2, H3.
  subst r. unfold Part002.restoreFilter.
  rewrite !bind_gets. rewrite H3, H2.
  destruct (existsb _ _) eqn:E.
  - apply has_option_populated in E. destruct E as [E | E];
      [| exfalso; apply Hn; apply (In_uniq String.eqb); apply In_sort;
         exact E].
    rewrite bind_modify. rewrite (part002_filterQuotes_keeps_filter _).
    simpl. rewrite H2, E. apply select_set_all.
  - unfold ret at 1. unfold bind at 1.
    rewrite (part002_filterQuotes_keeps_filter _).
    rewrite H2. apply select_value_populated.
Qed.

End RestoreFilter.

(** C3 -- The page starts with the three default quotes and a persisted
    [selectedCategory] of ["humor"], which names none of their categories.
    [script.js] assigns it to the filter list all the same: no option
    carries it, the list is left without selection, its value reads as the
    empty string, the display says that no quote was found and the empty
    string is persisted.  [part_002] checks that the option exists first,
    and the filter falls back to ["all"]. *)
Theorem restoreFilter_stale_category :
  select_value
    (categoryFilter
       (run ScriptJs.startup
            (page_of ScriptJs.defaults None (Some "humor") "" "")))
  = ""
  /\ quoteDisplay
       (run ScriptJs.startup
            (page_of ScriptJs.defaults None (Some "humor") "" ""))
     = Message "No quotes found in this category."
  /\ ls_selectedCategory
       (run ScriptJs.startup
            (page_of ScriptJs.defaults None (Some "humor") "" ""))
     = Some ""
  /\ select_value
       (categoryFilter
          (run Part002.startup
               (page_of ScriptJs.defaults None (Some "humor") "" "")))
     = "all".
Proof. repeat split; reflexivity. Qed.

(** ** Import ([part_002] beside [script.js]) *)

Section Part002Import.
Context {J : JSON}.

(** A top-level value that is not an array is reported as a format error
    and nothing is imported. *)
Lemma part002_import_not_array (s : page) (content : json_text) (v : value) :
  JSON_parse content = Ok v ->
  (forall l, v <> JArr l) ->
  run (Part002.importFromJsonFile (Some content)) s
  = set_importFile ""
      (set_notifications
         ("❌ Import failed: Invalid file format: Expected a JSON array of quotes."
            :: notifications s) s).
Proof.
  intros Hp Hv. unfold run, Part002.importFromJsonFile, try_catch.
  rewrite bind_lift, Hp.
  destruct v as [| b | n | t | l | f]; try reflexivity.
  exfalso. exact (Hv l eq_refl).
Qed.

(** An element without a usable [text] or [category], or whose pair is in
    the store already, is passed over: the store, the count and the rest of
    the batch go on unchanged. *)
Lemma part002_import_step_skips (e : value) (n : nat) (s : page)
  (t c : jsval) (found : bool) :
  get e "text" = Ok t -> get e "category" = Ok c ->
  Part002.pair_exists (quotes s) e = Ok found ->
  found = true \/ truthy t = false \/ truthy c = false ->
  Part002.import_step e n s = (s, Ok n).
Proof.
  intros Ht Hc Hf H. unfold Part002.import_step.
  rewrite bind_gets, bind_lift, Hf, bind_lift.
  unfold Part002.accepts. rewrite Ht. cbn [rbind]. rewrite Hc. cbn [rbind].
  destruct found; [reflexivity |]. cbn [negb].
  destruct (truthy t); [| reflexivity].
  destruct (truthy c); [| reflexivity].
  destruct H as [H | [H | H]]; discriminate.
Qed.

Lemma part002_import_loop_skips (e : value) (rest : list value) (n : nat)
  (s : page) (t c : jsval) (found : bool) :
  get e "text" = Ok t -> get e "category" = Ok c ->
  Part002.pair_exists (quotes s) e = Ok found ->
  found = true \/ truthy t = false \/ truthy c = false ->
  Part002.import_loop (e :: rest) n s = Part002.import_loop rest n s.
Proof.
  intros Ht Hc Hf H. cbn [Part002.import_loop]. unfold bind at 1.
  rewrite (part002_import_step_skips e n s t c found Ht Hc Hf H).
  reflexivity.
Qed.


(** Whatever one round appends, it appends only when no quote of the store
    has the element's text and category. *)
Lemma part002_import_step_only_new (e : value) (n : nat) (s : page) :
  quotes (fst (Part002.import_step e n s)) <> quotes s ->
  Part002.pair_exists (quotes s) e = Ok false.
Proof.
  unfold Part002.import_step. rewrite bind_gets, bind_lift.
  destruct (Part002.pair_exists (quotes s) e) as [[|] | err];
    try (intros H; exfalso; apply H; reflexivity).
  intros _. reflexivity.
Qed.

End Part002Import.

(** C2 -- The store holds ["A"] / ["x"]; the file holds that quote twice
    and an object without [text] and [category].  [script.js] appends the
    three elements as they are, duplicates and the invalid one included,
    persists them, and then reports a failure (raised by the refresh of the
    category lists on the invalid element).  [part_002] on the same file
    adds nothing and says so. *)
Theorem import_scenario :
  quotes
    (run (ScriptJs.importFromJsonFile
            (Some (Some (JArr [quote "A" "x"; quote "A" "x";
                               JObj [("not", JStr "valid")]]))))
         (page_of [quote "A" "x"] (Some (Some (JArr [quote "A" "x"])))
                  None "" ""))
  = [quote "A" "x"; quote "A" "x"; quote "A" "x"; JObj [("not", JStr "valid")]]
  /\ persisted_ok
       (run (ScriptJs.importFromJsonFile
               (Some (Some (JArr [quote "A" "x"; quote "A" "x";
                                  JObj [("not", JStr "valid")]]))))
            (page_of [quote "A" "x"] (Some (Some (JArr [quote "A" "x"])))
                     None "" ""))
  /\ alerts
       (run (ScriptJs.importFromJsonFile
               (Some (Some (JArr [quote "A" "x"; quote "A" "x";
                                  JObj [("not", JStr "valid")]]))))
            (page_of [quote "A" "x"] (Some (Some (JArr [quote "A" "x"])))
                     None "" ""))
     = ["Import failed: Invalid JSON format."]
  /\ store
       (run (Part002.importFromJsonFile
               (Some (Some (JArr [quote "A" "x"; quote "A" "x";
                                  JObj [("not", JStr "valid")]]))))
            (page_of [quote "A" "x"] (Some (Some (JArr [quote "A" "x"])))
                     None "" ""))
     = store (page_of [quote "A" "x"] (Some (Some (JArr [quote "A" "x"])))
                      None "" "")
  /\ notifications
       (run (Part002.importFromJsonFile
               (Some (Some (JArr [quote "A" "x"; quote "A" "x";
                                  JObj [("not", JStr "valid")]]))))
            (page_of [quote "A" "x"] (Some (Some (JArr [quote "A" "x"])))
                     None "" ""))
     = ["ℹ️ No new quotes were imported (either no new quotes or invalid format)."].
Proof. repeat split; reflexivity. Qed.


(** Beside the properties above: in [part_002] an element that throws in
    the middle of a batch ([null], or a category that is not a string)
    ends the import after the earlier elements were pushed and before
    anything is saved. *)
Example part002_import_interrupted :
  store
    (run (Part002.importFromJsonFile
            (Some (Some (JArr [quote "B" "Y"; JNull; quote "C" "z"]))))
         (page_of [quote "A" "x"] (Some (Some (JArr [quote "A" "x"])))
                  None "" ""))
  = ([quote "A" "x"; quote "B" "y"], Some (Some (JArr [quote "A" "x"]))).
Proof. reflexivity. Qed.

(** Also in [part_002]: the import compares the category as the file
    writes it and stores it lower-cased, so an element whose category
    differs from a stored one by case only is appended as a duplicate. *)
Example part002_import_case :
  quotes
    (run (Part002.importFromJsonFile (Some (Some (JArr [quote "A" "X"]))))
         (page_of [quote "A" "x"] (Some (Some (JArr [quote "A" "x"])))
                  None "" ""))
  = [quote "A" "x"; quote "A" "x"].
Proof. reflexivity. Qed.

(** * Further properties of the scripts *)

(** ** Synchronisation in [script.js]: failures and quiet runs *)

Section ScriptSyncOutcomes.
Context {J : JSON}.

Lemma script_sync_throw (fetched : result response) (s : page) (e : exn) :
  script_sync_outcome fetched (ls_quotes s) = Throw e ->
  ScriptJs.syncWithServer fetched s
  = (set_notifications ("⚠️ Failed to sync with server." :: notifications s) s,
     Ok tt).
Proof.
  unfold script_sync_outcome, script_candidates, ScriptJs.syncWithServer,
    try_catch.
  rewrite bind_lift. destruct fetched as [res | e0]; [| reflexivity].
  cbn [rbind]. rewrite bind_lift.
  destruct (res_json res) as [body | e0]; [| reflexivity].
  cbn [rbind]. rewrite bind_lift.
  destruct (map_posts body) as [cands | e0]; [| reflexivity].
  cbn [rbind]. rewrite bind_gets, bind_lift.
  destruct (parse_item (ls_quotes s)) as [parsed | e0]; [| reflexivity].
  cbn [rbind]. rewrite bind_lift.
  destruct (ScriptJs.merge_into parsed cands) as [[l u] | e0];
    [discriminate | reflexivity].
Qed.

Lemma script_sync_quiet (fetched : result response) (s : page)
  (l : list value) :
  script_sync_outcome fetched (ls_quotes s) = Ok (l, false) ->
  ScriptJs.syncWithServer fetched s = (s, Ok tt).
Proof.
  unfold script_sync_outcome, script_candidates, ScriptJs.syncWithServer,
    try_catch.
  rewrite bind_lift. destruct fetched as [res | e0]; [| discriminate].
  cbn [rbind]. rewrite bind_lift.
  destruct (res_json res) as [body | e0]; [| discriminate].
  cbn [rbind]. rewrite bind_lift.
  destruct (map_posts body) as [cands | e0]; [| discriminate].
  cbn [rbind]. rewrite bind_gets, bind_lift.
  destruct (parse_item (ls_quotes s)) as [parsed | e0]; [| discriminate].
  cbn [rbind]. rewrite bind_lift.
  destruct (ScriptJs.merge_into parsed cands) as [[l0 [|]] | e0];
    try discriminate.
  reflexivity.
Qed.

(** X1 -- [syncWithServer] of [script.js] catches every failure of its
    request: when the request is rejected, when the body of the response is
    not JSON, when it is not an array or holds [null] among its first five
    records, and when the text persisted under [quotes] is not JSON, the
    run returns normally and the page is as before except for the notice
    "Failed to sync with server.": the store, the lists, the display and the
    persisted filter are untouched. *)
Theorem script_sync_reports_failure (s : page) (fetched : result response)
  (e : exn) :
  fetched = Throw e
  \/ (exists res,
        fetched = Ok res
        /\ (res_json res = Throw e
            \/ exists body, res_json res = Ok body /\ map_posts body = Throw e))
  \/ (exists t, ls_quotes s = Some t /\ JSON_parse t = Throw e) ->
  ScriptJs.syncWithServer fetched s
  = (set_notifications ("⚠️ Failed to sync with server." :: notifications s) s,
     Ok tt).
Proof.
  intros H.
  assert (E : exists e', script_sync_outcome fetched (ls_quotes s) = Throw e').
  { unfold script_sync_outcome, script_candidates.
    destruct H as [-> | [(res & -> & [Hj | (body & Hj & Hm)]) | (t & Hl & Hp)]].
    - exists e; reflexivity.
    - cbn [rbind]. rewrite Hj. exists e; reflexivity.
    - cbn [rbind]. rewrite Hj. cbn [rbind]. rewrite Hm. exists e; reflexivity.
    - destruct fetched as [res | e0]; [| exists e0; reflexivity].
      cbn [rbind]. destruct (res_json res) as [body | e0];
        [| exists e0; reflexivity].
      cbn [rbind]. destruct (map_posts body) as [cands | e0];
        [| exists e0; reflexivity].
      cbn [rbind]. rewrite Hl. cbn [parse_item]. rewrite Hp.
      exists e; reflexivity. }
  destruct E as [e' E]. exact (script_sync_throw fetched s e' E).
Qed.

(** X2 -- In [script.js] a synchronisation that completes and a second one
    on the same response: the second leaves the whole page as the first
    left it, notices included.  A run that finds nothing new is silent. *)
Theorem script_sync_again_is_silent (s : page) (fetched : result response)
  (l : list value) (updated : bool) :
  primitive_titles fetched ->
  script_sync_outcome fetched (ls_quotes s) = Ok (l, updated) ->
  run (ScriptJs.syncWithServer fetched)
      (run (ScriptJs.syncWithServer fetched) s)
  = run (ScriptJs.syncWithServer fetched) s.
Proof.
  intros Hp Ho. destruct updated.
  - pose proof (script_sync_store fetched s) as Hs.
    rewrite Ho in Hs. cbn [store_after_sync] in Hs.
    apply pair_equal_spec in Hs. destruct Hs as [_ Hl].
    pose proof (script_outcome_stable fetched _ l Hp Ho) as Hst.
    rewrite <- Hl in Hst.
    unfold run at 1. rewrite (script_sync_quiet _ _ _ Hst). reflexivity.
  - unfold run. rewrite (script_sync_quiet _ _ _ Ho). cbn [fst].
    rewrite (script_sync_quiet _ _ _ Ho). reflexivity.
Qed.

End ScriptSyncOutcomes.

Lemma script_sync_reports_failure_witness :
  ScriptJs.syncWithServer (Throw NetworkError)
    (page_of [quote "A" "x"] (Some (Some (JArr [quote "A" "x"]))) None "" "")
  = (set_notifications ["⚠️ Failed to sync with server."]
       (page_of [quote "A" "x"] (Some (Some (JArr [quote "A" "x"]))) None "" ""),
     Ok tt).
Proof.
  exact (script_sync_reports_failure
           (page_of [quote "A" "x"] (Some (Some (JArr [quote "A" "x"])))
                    None "" "")
           (Throw NetworkError) NetworkError (or_introl eq_refl)).
Defined.

Lemma script_sync_again_is_silent_witness :
  run (ScriptJs.syncWithServer
         (served (JArr [post (JStr "A"); post (JStr "B")])))
      (run (ScriptJs.syncWithServer
              (served (JArr [post (JStr "A"); post (JStr "B")])))
           (page_of [quote "A" "x"] (Some (Some (JArr [quote "A" "x"])))
                    None "" ""))
  = run (ScriptJs.syncWithServer
           (served (JArr [post (JStr "A"); post (JStr "B")])))
        (page_of [quote "A" "x"] (Some (Some (JArr [quote "A" "x"])))
                 None "" "").
Proof.
  exact (script_sync_again_is_silent
           (page_of [quote "A" "x"] (Some (Some (JArr [quote "A" "x"])))
                    None "" "")
           (served (JArr [post (JStr "A"); post (JStr "B")]))
           [quote "A" "x"; quote "B" "server"] true
           primitive_titles_strings eq_refl).
Defined.

(** ** Synchronisation reads the persisted copy, not the page *)

Section SyncReadsPersisted.
Context {J : JSON}.

Lemma script_sync_appended (s : page) (fetched : result response) :
  exists added,
    sync_appended s (run (ScriptJs.syncWithServer fetched) s) added.
Proof.
  destruct (script_candidates fetched) as [cands | e] eqn:Ec.
  - destruct (script_candidates_shape _ _ Ec) as (Hlen & Hsq & _).
    apply (sync_appended_intro s _ cands _ (script_sync_store fetched s));
      auto.
    unfold script_sync_outcome. rewrite Ec. cbn [rbind].
    intros l' Ho.
    destruct (parse_item (ls_quotes s)) as [parsed | e] eqn:Ep;
      [| discriminate].
    cbn [rbind] in Ho.
    destruct (script_merge_into_array _ _ _ Ho) as (l0 & Harr & Hm).
    destruct (loop_adds _ script_step_cases _ _ _ _ _ Hm)
      as (added & -> & Hla & Hin & [[_ Hne] | [Hu _]]); [| discriminate].
    exists l0, added. repeat split; auto.
    exists parsed. auto.
  - apply (sync_appended_intro s _ [] _ (script_sync_store fetched s)).
    + simpl; lia.
    + constructor.
    + unfold script_sync_outcome. rewrite Ec. discriminate.
Qed.

Lemma part002_sync_appended (s : page) (fetched : result response) :
  exists added,
    sync_appended s (run (Part002.syncWithServer fetched) s) added.
Proof.
  destruct (part002_candidates_shape fetched) as (Hlen & Hsq & _).
  apply (sync_appended_intro s _ (part002_candidates fetched) _
           (part002_sync_store fetched s)); auto.
  unfold part002_sync_outcome. intros l' Ho.
  destruct (parse_item (ls_quotes s)) as [parsed | e] eqn:Ep;
    [| discriminate].
  cbn [rbind] in Ho.
  destruct (part002_merge_into_array _ _ _ Ho) as (l0 & Harr & Hm).
  destruct (loop_adds _ part002_step_cases _ _ _ _ _ Hm)
    as (added & -> & Hla & Hin & [[_ Hne] | [Hu _]]); [| discriminate].
  exists l0, added. repeat split; auto.
  exists parsed. auto.
Qed.

Lemma nothing_stored (s : page) (local : list value) :
  ls_quotes s = None -> stored_quotes s local -> local = [].
Proof.
  intros Hn (parsed & Hp & Ha). rewrite Hn in Hp. simpl in Hp.
  inversion Hp; subst. simpl in Ha. inversion Ha. reflexivity.
Qed.

Lemma appended_on_nothing (s s' : page) (added : list value) :
  ls_quotes s = None -> sync_appended s s' added ->
  store s' = store s
  \/ (quotes s' <> [] /\ Forall server_category (quotes s')).
Proof.
  intros Hn (_ & Hsc & [[_ Hs] | (Hne & local & Hst & Hq)] & _).
  - left; exact Hs.
  - right. rewrite (nothing_stored s local Hn Hst) in Hq. simpl in Hq.
    rewrite Hq. auto.
Qed.

(** X3 -- [syncWithServer] merges into the array it reads from
    [localStorage] and then makes the result the sequence in memory.  On a
    page with nothing persisted under [quotes] (a first visit, where the
    sequence in memory is the default quotes), a run that adds anything
    leaves a sequence of server quotes only: what was in memory is gone.  A
    run that adds nothing leaves the store alone.  Both scripts. *)
Theorem sync_drops_unsaved_quotes (s : page) (fetched : result response) :
  ls_quotes s = None ->
  (store (run (ScriptJs.syncWithServer fetched) s) = store s
   \/ (quotes (run (ScriptJs.syncWithServer fetched) s) <> []
       /\ Forall server_category
            (quotes (run (ScriptJs.syncWithServer fetched) s))))
  /\ (store (run (Part002.syncWithServer fetched) s) = store s
      \/ (quotes (run (Part002.syncWithServer fetched) s) <> []
          /\ Forall server_category
               (quotes (run (Part002.syncWithServer fetched) s)))).
Proof.
  intros Hn. split.
  - destruct (script_sync_appended s fetched) as [added H].
    exact (appended_on_nothing _ _ _ Hn H).
  - destruct (part002_sync_appended s fetched) as [added H].
    exact (appended_on_nothing _ _ _ Hn H).
Qed.

End SyncReadsPersisted.

Lemma sync_drops_unsaved_quotes_witness :
  quotes (run (ScriptJs.syncWithServer (served (JArr [post (JStr "A")])))
              (page_of ScriptJs.defaults None None "" ""))
  = [quote "A" "server"]
  /\ (store (run (ScriptJs.syncWithServer (served (JArr [post (JStr "A")])))
                 (page_of ScriptJs.defaults None None "" ""))
      = store (page_of ScriptJs.defaults None None "" "")
      \/ (quotes (run (ScriptJs.syncWithServer
                         (served (JArr [post (JStr "A")])))
                      (page_of ScriptJs.defaults None None "" ""))
          <> []
          /\ Forall server_category
               (quotes (run (ScriptJs.syncWithServer
                               (served (JArr [post (JStr "A")])))
                            (page_of ScriptJs.defaults None None "" ""))))).
Proof.
  split; [reflexivity |].
  exact (proj1 (sync_drops_unsaved_quotes
                  (page_of ScriptJs.defaults None None "" "")
                  (served (JArr [post (JStr "A")])) eq_refl)).
Defined.

(** ** The category lists and the listed view *)

Lemma filter_map_commute {A B : Type} (f : A -> B) (p : B -> bool)
  (l : list A) :
  filter p (map f l) = map f (filter (fun x => p (f x)) l).
Proof.
  induction l as [| x l IH]; simpl; [reflexivity |].
  destruct (p (f x)); simpl; rewrite IH; reflexivity.
Qed.

Lemma uniq_map {A B : Type} (f : A -> B) (same : A -> A -> bool)
  (same' : B -> B -> bool) (l : list A) :
  (forall x y, same' (f x) (f y) = same x y) ->
  uniq same' (map f l) = map f (uniq same l).
Proof.
  intros H. induction l as [| x l IH]; simpl; [reflexivity |].
  rewrite IH, filter_map_commute. f_equal.
  f_equal. apply filter_ext. intros y. rewrite H. reflexivity.
Qed.

Lemma set_of_strings (cats : list string) :
  set_of (map (fun c => Some (JStr c)) cats)
  = map (fun c => Some (JStr c)) (uniq String.eqb cats).
Proof. unfold set_of. apply uniq_map. reflexivity. Qed.



Lemma shown_entry (q : value) : q <> JNull -> shown q = Ok (entry q).
Proof. destruct q; try reflexivity. intros H; contradiction. Qed.

Lemma string_categories_not_null (qs : list value) (cats : list string) :
  string_categories qs cats -> Forall (fun q => q <> JNull) qs.
Proof.
  unfold string_categories. revert cats.
  induction qs as [| q qs IH]; intros cats H; constructor.
  - intros ->. simpl in H. discriminate.
  - simpl in H. destruct (get q "category") as [c |]; simpl in H;
      [| discriminate].
    destruct (map_r (fun q0 => get q0 "category") qs) as [r |] eqn:E;
      simpl in H; [| discriminate].
    destruct cats as [| c0 cats]; simpl in H; inversion H; subst.
    apply (IH cats). reflexivity.
Qed.

Lemma map_r_shown (qs : list value) :
  Forall (fun q => q <> JNull) qs -> map_r shown qs = Ok (map entry qs).
Proof.
  induction 1 as [| q qs Hq _ IH]; simpl; [reflexivity |].
  rewrite (shown_entry q Hq). simpl. rewrite IH. reflexivity.
Qed.

Lemma filteredQuotes_filter (selected : string) (qs : list value) :
  Forall (fun q => q <> JNull) qs ->
  filteredQuotes selected qs
  = Ok (if String.eqb selected "all" then qs
        else filter (has_category selected) qs).
Proof.
  intros H. unfold filteredQuotes.
  destruct (String.eqb selected "all"); [reflexivity |].
  induction H as [| q qs Hq _ IH]; simpl; [reflexivity |].
  unfold has_category at 1.
  destruct q; try contradiction; simpl; rewrite IH; reflexivity.
Qed.

Lemma filter_not_null (p : value -> bool) (qs : list value) :
  Forall (fun q => q <> JNull) qs ->
  Forall (fun q => q <> JNull) (filter p qs).
Proof.
  intros H. apply Forall_forall. intros q Hq. apply filter_In in Hq.
  rewrite Forall_forall in H. apply H. tauto.
Qed.

Section Lists.
Context {J : JSON}.

Lemma script_add_category (c : string) (s : page) :
  ScriptJs.add_category (Some (JStr c)) s
  = (set_categoryFilter
       (appendChild (category_option c) (categoryFilter s))
       (set_categorySelect
          (appendChild (category_option c) (categorySelect s)) s),
     Ok tt).
Proof. reflexivity. Qed.

Lemma script_forEach_add (cats : list string) :
  forall s,
    forEach ScriptJs.add_category (map (fun c => Some (JStr c)) cats) s
    = (set_categoryFilter (append_all cats (categoryFilter s))
         (set_categorySelect (append_all cats (categorySelect s)) s),
       Ok tt).
Proof.
  induction cats as [| c cats IH]; intros s.
  - destruct s; reflexivity.
  - cbn [map forEach]. unfold bind. rewrite script_add_category.
    rewrite IH. reflexivity.
Qed.


(** The page [populateCategories] of [script.js] leaves on a store whose
    categories are strings. *)
Lemma script_populate_page (s : page) (cats : list string) :
  string_categories (quotes s) cats ->
  ScriptJs.populateCategories s
  = (set_categoryFilter
       (append_all (uniq String.eqb cats) (select_all "All Categories"))
       (set_categorySelect
          (append_all (uniq String.eqb cats) (select_all "All")) s),
     Ok tt).
Proof.
  intros H. unfold ScriptJs.populateCategories.
  rewrite bind_gets, bind_lift, H, !bind_modify.
  rewrite set_of_strings, script_forEach_add. reflexivity.
Qed.

End Lists.

Lemma strings_or_not (cs : list jsval) :
  (exists cats, cs = map (fun c => Some (JStr c)) cats)
  \/ (exists c, In c cs /\ forall c0, c <> Some (JStr c0)).
Proof.
  induction cs as [| c cs IH].
  - left. exists []. reflexivity.
  - destruct c as [[| b | n | t | l | f] |];
      try (right; eexists; split; [left; reflexivity | discriminate]).
    destruct IH as [[cats ->] | (c & Hin & Hc)].
    + left. exists (t :: cats). reflexivity.
    + right. exists c. split; [right; exact Hin | exact Hc].
Qed.

Lemma strict_eq_string_left (x c : jsval) :
  strict_eq x c = true -> (forall c0, c <> Some (JStr c0)) ->
  forall x0, x <> Some (JStr x0).
Proof.
  intros H Hc x0 ->. destruct c as [[| b | n | t | l | f] |];
    simpl in H; try discriminate.
  exact (Hc t eq_refl).
Qed.

Lemma set_of_keeps_other (l : list jsval) :
  (exists c, In c l /\ forall c0, c <> Some (JStr c0)) ->
  exists c, In c (set_of l) /\ forall c0, c <> Some (JStr c0).
Proof.
  unfold set_of. induction l as [| x l IH]; intros (c & Hin & Hc).
  - contradiction.
  - simpl. destruct Hin as [-> | Hin].
    + exists c. split; [left; reflexivity | exact Hc].
    + destruct (IH (ex_intro _ c (conj Hin Hc))) as (c' & Hin' & Hc').
      destruct (strict_eq x c') eqn:E.
      * exists x. split; [left; reflexivity |].
        exact (strict_eq_string_left x c' E Hc').
      * exists c'. split; [| exact Hc'].
        right. apply filter_In. split; [exact Hin' |]. rewrite E. reflexivity.
Qed.

Lemma map_r_get_TypeError (k : string) (l : list value) (e : exn) :
  map_r (fun q => get q k) l = Throw e -> e = TypeError.
Proof.
  induction l as [| q l IH]; simpl; [discriminate |].
  destruct q; simpl;
    try (destruct (map_r (fun q => get q k) l); simpl;
         [discriminate | intros H; inversion H; subst; apply IH; reflexivity]).
  intros H; inversion H; reflexivity.
Qed.

Section ListsFail.
Context {J : JSON}.

Lemma script_forEach_throws (l : list jsval) :
  (exists c, In c l /\ forall c0, c <> Some (JStr c0)) ->
  forall s, snd (forEach ScriptJs.add_category l s) = Throw TypeError.
Proof.
  induction l as [| x l IH]; intros (c & Hin & Hc) s; [contradiction |].
  cbn [forEach]. unfold bind.
  destruct x as [[| b | n | t | l0 | f] |]; try reflexivity.
  rewrite script_add_category. apply IH.
  destruct Hin as [<- | Hin]; [exfalso; exact (Hc t eq_refl) |].
  exists c. auto.
Qed.

(** [populateCategories] of [script.js] throws a [TypeError] as soon as the
    store holds [null] or a quote whose category is not a string. *)
Lemma script_populate_throws (s : page) :
  ~ (exists cats, string_categories (quotes s) cats) ->
  snd (ScriptJs.populateCategories s) = Throw TypeError.
Proof.
  intros Hn. unfold ScriptJs.populateCategories.
  rewrite bind_gets, bind_lift.
  destruct (map_r (fun q => get q "category") (quotes s)) as [cs | e] eqn:E.
  - rewrite !bind_modify.
    destruct (strings_or_not cs) as [[cats ->] | Hc].
    + exfalso. apply Hn. exists cats. exact E.
    + apply script_forEach_throws. apply set_of_keeps_other. exact Hc.
  - apply map_r_get_TypeError in E. subst. reflexivity.
Qed.

Lemma script_populate_keeps_alerts : keeps alerts ScriptJs.populateCategories.
Proof.
  unfold ScriptJs.populateCategories. keeps.
  apply keeps_forEach. intros cat. unfold ScriptJs.add_category.
  destruct cat as [[] |]; keeps.
Qed.

(** What [filterQuotes] of [script.js] does on a store without [null]. *)
Lemma script_filterQuotes_page (s : page) :
  Forall (fun q => q <> JNull) (quotes s) ->
  ScriptJs.filterQuotes s
  = (set_quoteDisplay
       (let view :=
          if String.eqb (select_value (categoryFilter s)) "all" then quotes s
          else filter (has_category (select_value (categoryFilter s)))
                      (quotes s) in
        if (List.length view =? 0)%nat
        then Message "No quotes found in this category."
        else QuoteList (map entry view))
       (set_ls_selectedCategory (Some (select_value (categoryFilter s))) s),
     Ok tt).
Proof.
  intros H. unfold ScriptJs.filterQuotes.
  rewrite bind_gets, bind_modify, bind_gets, bind_lift.
  change (quotes (set_ls_selectedCategory _ s)) with (quotes s).
  rewrite (filteredQuotes_filter _ _ H). cbv zeta.
  set (view := if String.eqb _ "all" then _ else _).
  assert (Hv : Forall (fun q => q <> JNull) view).
  { unfold view. destruct (String.eqb _ "all"); [exact H |].
    apply filter_not_null. exact H. }
  destruct (List.length view =? 0)%nat; [reflexivity |].
  rewrite bind_lift, (map_r_shown _ Hv). reflexivity.
Qed.

Lemma part002_filterQuotes_page (s : page) :
  Forall (fun q => q <> JNull) (quotes s) ->
  Part002.filterQuotes s
  = (set_quoteDisplay
       (let view :=
          if String.eqb (select_value (categoryFilter s)) "all" then quotes s
          else filter (has_category (select_value (categoryFilter s)))
                      (quotes s) in
        if (List.length view =? 0)%nat
        then Message ("No quotes found in the '"
                      ++ select_value (categoryFilter s)
                      ++ "' category.")%string
        else QuoteList (map entry view))
       (set_ls_selectedCategory (Some (select_value (categoryFilter s))) s),
     Ok tt).
Proof.
  intros H. unfold Part002.filterQuotes.
  rewrite bind_gets, bind_modify, bind_gets, bind_lift.
  change (quotes (set_ls_selectedCategory _ s)) with (quotes s).
  rewrite (filteredQuotes_filter _ _ H). cbv zeta.
  set (view := if String.eqb _ "all" then _ else _).
  assert (Hv : Forall (fun q => q <> JNull) view).
  { unfold view. destruct (String.eqb _ "all"); [exact H |].
    apply filter_not_null. exact H. }
  destruct (List.length view =? 0)%nat; [reflexivity |].
  rewrite bind_lift, (map_r_shown _ Hv). reflexivity.
Qed.

End ListsFail.

(** ** Refreshing the page after a change of the store *)

Section Refresh.
Context {J : JSON}.

Lemma script_refresh (s : page) (cats : list string) :
  string_categories (quotes s) cats ->
  (ScriptJs.populateCategories ;;; ScriptJs.filterQuotes) s
  = (refreshed (uniq String.eqb cats) "No quotes found in this category." s,
     Ok tt).
Proof.
  intros H. unfold bind. rewrite (script_populate_page s cats H).
  rewrite script_filterQuotes_page
    by (exact (string_categories_not_null _ _ H)).
  cbn [categoryFilter set_categoryFilter set_categorySelect].
  rewrite select_value_populated. reflexivity.
Qed.

(** X4 -- [filterQuotes] on a store that holds no [null], in both scripts:
    it returns, persists the value of the filter list under
    [selectedCategory], leaves the store and the lists alone, and lists the
    whole store for ["all"], otherwise exactly the quotes whose category is
    strictly equal to the value, in store order; when there is none it
    shows the "No quotes found" message instead. *)
Theorem filterQuotes_lists_matching (s : page) :
  Forall (fun q => q <> JNull) (quotes s) ->
  ScriptJs.filterQuotes s
  = (set_quoteDisplay
       (if (List.length
              (listed_view (select_value (categoryFilter s)) (quotes s)) =? 0)%nat
        then Message "No quotes found in this category."
        else QuoteList
               (map entry
                    (listed_view (select_value (categoryFilter s)) (quotes s))))
       (set_ls_selectedCategory (Some (select_value (categoryFilter s))) s),
     Ok tt)
  /\ Part002.filterQuotes s
     = (set_quoteDisplay
          (if (List.length
                 (listed_view (select_value (categoryFilter s)) (quotes s))
               =? 0)%nat
           then Message ("No quotes found in the '"
                         ++ select_value (categoryFilter s)
                         ++ "' category.")%string
           else QuoteList
                  (map entry
                       (listed_view (select_value (categoryFilter s))
                                    (quotes s))))
          (set_ls_selectedCategory (Some (select_value (categoryFilter s))) s),
        Ok tt).
Proof.
  intros H. split.
  - exact (script_filterQuotes_page s H).
  - exact (part002_filterQuotes_page s H).
Qed.

End Refresh.

Lemma filterQuotes_lists_matching_witness :
  quoteDisplay
    (run ScriptJs.filterQuotes
         (pick_filter "x"
            (set_categoryFilter
               (append_all ["x"; "y"] (select_all "All Categories"))
               (page_of [quote "a" "x"; quote "b" "y"; quote "c" "x"]
                        None None "" ""))))
  = QuoteList [(Some (JStr "a"), Some (JStr "x"));
               (Some (JStr "c"), Some (JStr "x"))].
Proof.
  unfold run.
  rewrite (proj1 (filterQuotes_lists_matching
                    (pick_filter "x"
                       (set_categoryFilter
                          (append_all ["x"; "y"] (select_all "All Categories"))
                          (page_of [quote "a" "x"; quote "b" "y"; quote "c" "x"]
                                   None None "" "")))
                    ltac:(repeat constructor; discriminate))).
  reflexivity.
Defined.






Section AfterBind.
Context {J : JSON}.

Lemma bind_after {A B C : Type} (m : M A) (f : A -> M B) (g : B -> M C)
  (s s' : page) (b : B) :
  bind m f s = (s', Ok b) ->
  bind m (fun a => bind (f a) g) s = g b s'.
Proof.
  unfold bind. destruct (m s) as [s1 [a | e]]; [| discriminate].
  intros ->. reflexivity.
Qed.

Lemma script_refresh_then {B : Type} (k : M B) (s : page)
  (cats : list string) :
  string_categories (quotes s) cats ->
  (ScriptJs.populateCategories ;;; ScriptJs.filterQuotes ;;; k) s
  = k (refreshed (uniq String.eqb cats) "No quotes found in this category." s).
Proof.
  intros H.
  exact (bind_after _ _ (fun _ => k) _ _ tt (script_refresh s cats H)).
Qed.

(** When a category of the store is not a string, the refresh stops in
    [populateCategories]: what follows it is not run. *)
Lemma script_refresh_stops {B : Type} (k : M B) (s : page) :
  ~ (exists cats, string_categories (quotes s) cats) ->
  (ScriptJs.populateCategories ;;; k) s
  = (fst (ScriptJs.populateCategories s), Throw TypeError).
Proof.
  intros H. unfold bind. pose proof (script_populate_throws s H) as E.
  destruct (ScriptJs.populateCategories s) as [s1 r]. simpl in E. subst.
  reflexivity.
Qed.


End AfterBind.

(** ** Import in [script.js]: what the user is told *)

Section ScriptImportReports.
Context {J : JSON}.

(** X5 -- [importFromJsonFile] of [script.js] on a file that holds an
    array: the elements are appended whole and the result persisted before
    anything is checked.  When every category of the resulting store is a
    string, both lists are filled again, the filter goes back to ["all"],
    the whole store is listed and the user reads "Quotes imported
    successfully!".  Otherwise the handler still returns and the store
    still holds the appended elements, persisted, yet the user reads
    "Import failed: Invalid JSON format.". *)
Theorem script_import_reports (s : page) (content : json_text)
  (l : list value) :
  JSON_parse content = Ok (JArr l) ->
  (forall cats,
      string_categories (quotes s ++ l) cats ->
      ScriptJs.importFromJsonFile (Some content) s
      = (set_alerts ("Quotes imported successfully!" :: alerts s)
           (refreshed (uniq String.eqb cats)
                      "No quotes found in this category."
                      (with_store (quotes s ++ l) s)),
         Ok tt))
  /\ (~ (exists cats, string_categories (quotes s ++ l) cats) ->
      snd (ScriptJs.importFromJsonFile (Some content) s) = Ok tt
      /\ store (run (ScriptJs.importFromJsonFile (Some content)) s)
         = store (with_store (quotes s ++ l) s)
      /\ alerts (run (ScriptJs.importFromJsonFile (Some content)) s)
         = "Import failed: Invalid JSON format." :: alerts s).
Proof.
  intros Hp. split.
  - intros cats H.
    unfold ScriptJs.importFromJsonFile, try_catch.
    rewrite bind_lift, Hp, bind_modify.
    unfold ScriptJs.saveQuotes. rewrite bind_modify.
    change (set_ls_quotes _ (set_quotes (quotes s ++ l) s))
      with (with_store (quotes s ++ l) s).
    rewrite (script_refresh_then _ _ cats) by exact H.
    reflexivity.
  - intros H.
    unfold run, ScriptJs.importFromJsonFile, try_catch.
    rewrite bind_lift, Hp, bind_modify.
    unfold ScriptJs.saveQuotes. rewrite bind_modify.
    change (set_ls_quotes _ (set_quotes (quotes s ++ l) s))
      with (with_store (quotes s ++ l) s).
    rewrite script_refresh_stops by exact H.
    cbn [fst snd ScriptJs.alert modify alerts set_alerts].
    split; [reflexivity | split].
    + unfold ScriptJs.alert, modify. cbn [fst].
      rewrite <- (script_populateCategories_keeps
                    (with_store (quotes s ++ l) s)).
      destruct (fst (ScriptJs.populateCategories _)); reflexivity.
    + unfold ScriptJs.alert, modify. cbn [fst].
      rewrite (script_populate_keeps_alerts (with_store (quotes s ++ l) s)).
      reflexivity.
Qed.

(** X6 -- A file that does not hold an array is rejected by both scripts
    with the page otherwise as it was.  [script.js] reads "Import failed:
    Invalid JSON format." whatever the cause.  [part_002] empties the file
    input and names the cause: the message of the parse error (the
    fallback wording when that message is empty), or "Invalid file
    format: Expected a JSON array of quotes." for JSON that is no array. *)
Theorem import_rejects_non_arrays (s : page) (content : json_text) :
  (forall l, JSON_parse content <> Ok (JArr l)) ->
  ScriptJs.importFromJsonFile (Some content) s
  = (set_alerts ("Import failed: Invalid JSON format." :: alerts s) s, Ok tt)
  /\ exists reason,
       Part002.importFromJsonFile (Some content) s
       = (set_importFile ""
            (set_notifications
               (("❌ Import failed: " ++ reason)%string :: notifications s) s),
          Ok tt)
       /\ (forall v, JSON_parse content = Ok v ->
             reason = "Invalid file format: Expected a JSON array of quotes.")
       /\ (forall e, JSON_parse content = Throw e ->
             reason = if truthy (Some (JStr (message e))) then message e
                      else "Invalid JSON format or corrupted file.").
Proof.
  intros Hn.
  unfold ScriptJs.importFromJsonFile, Part002.importFromJsonFile, try_catch.
  rewrite !bind_lift.
  destruct (JSON_parse content) as [[| b | n | t | l | f] | e] eqn:Hp;
    try (split; [reflexivity |];
         exists "Invalid file format: Expected a JSON array of quotes.";
         split; [reflexivity | split; [reflexivity | discriminate]]).
  - exfalso. exact (Hn l eq_refl).
  - split; [reflexivity |].
    exists (if truthy (Some (JStr (message e))) then message e
            else "Invalid JSON format or corrupted file.").
    split; [reflexivity | split; [discriminate |]].
    intros e' E. inversion E. reflexivity.
Qed.

End ScriptImportReports.

Lemma script_import_reports_witness :
  alerts (run (ScriptJs.importFromJsonFile
                 (Some (Some (JArr [quote "a" "x"; JObj [("text", JStr "b")]]))))
              (page_of [] None None "" ""))
  = ["Import failed: Invalid JSON format."]
  /\ quotes (run (ScriptJs.importFromJsonFile
                    (Some (Some (JArr [quote "a" "x";
                                       JObj [("text", JStr "b")]]))))
                 (page_of [] None None "" ""))
     = [quote "a" "x"; JObj [("text", JStr "b")]].
Proof.
  destruct (script_import_reports
              (page_of [] None None "" "")
              (Some (JArr [quote "a" "x"; JObj [("text", JStr "b")]]))
              [quote "a" "x"; JObj [("text", JStr "b")]] eq_refl)
    as [_ H].
  destruct H as (_ & Hs & Ha).
  - intros [cats H]. unfold string_categories in H. simpl in H.
    destruct cats as [| c1 [| c2 cats]]; discriminate.
  - split; [exact Ha |]. apply store_eq in Hs. exact (proj1 Hs).
Defined.

Lemma import_rejects_non_arrays_witness :
  ScriptJs.importFromJsonFile (Some None) (page_of [] None None "" "")
  = (set_alerts ["Import failed: Invalid JSON format."]
       (page_of [] None None "" ""), Ok tt).
Proof.
  exact (proj1 (import_rejects_non_arrays
                  (page_of [] None None "" "") None
                  ltac:(intros l; discriminate))).
Defined.

(** ** Adding a quote in [script.js]: the page afterwards *)

Section ScriptAddQuotePage.
Context {J : JSON}.



End ScriptAddQuotePage.


(** ** The requests of [part_002] *)

Section Requests.
Context {J : JSON}.

(** X8 -- [fetchQuotesFromServer] never throws and touches nothing but the
    notification box.  It returns at most five quotes, all made with the
    category ["server"]: those mapped from the body when the request
    succeeded with an [ok] response whose body is an array of records, and
    none, with a notice naming the error, in every other case (a rejected
    request, a response that is not [ok], a body that does not parse or is
    no array, a [null] record). *)
Theorem fetch_never_throws (fetched : result response) (s : page) :
  exists l note,
    Part002.fetchQuotesFromServer fetched s
    = (set_notifications
         (note :: "Fetching quotes from server..." :: notifications s) s,
       Ok l)
    /\ (List.length l <= 5)%nat
    /\ Forall server_quote l
    /\ ((note = "Fetched quotes from server successfully."
         /\ exists res body,
              fetched = Ok res /\ res_ok res = true
              /\ res_json res = Ok body /\ map_posts body = Ok l)
        \/ (l = []
            /\ exists e,
                 note = ("⚠️ Failed to fetch quotes from server: "
                         ++ message e)%string
                 /\ (fetched = Throw e
                     \/ exists res,
                          fetched = Ok res
                          /\ ((res_ok res = false
                               /\ e = Error ("HTTP error! status: "
                                             ++ res_status res)%string)
                              \/ (res_ok res = true
                                  /\ (res_json res = Throw e
                                      \/ exists body,
                                           res_json res = Ok body
                                           /\ map_posts body = Throw e)))))).
Proof.
  unfold Part002.fetchQuotesFromServer, try_catch.
  unfold Part002.showNotification at 1. rewrite bind_modify.
  rewrite bind_lift. destruct fetched as [res | e].
  - destruct (res_ok res) eqn:Hok; cbn [negb].
    + unfold ret at 1. unfold bind at 1. rewrite bind_lift.
      destruct (res_json res) as [body | e] eqn:Hj.
      * rewrite bind_lift. destruct (map_posts body) as [cands | e] eqn:Hm.
        -- exists cands, "Fetched quotes from server successfully.".
           destruct (map_posts_shape body cands Hm) as [Hl Hs].
           split; [reflexivity | split; [exact Hl | split; [exact Hs |]]].
           left. split; [reflexivity |]. exists res, body. auto.
        -- exists [], ("⚠️ Failed to fetch quotes from server: "
                       ++ message e)%string.
           split; [reflexivity | split; [simpl; lia | split; [constructor |]]].
           right. split; [reflexivity |]. exists e. split; [reflexivity |].
           right. exists res. split; [reflexivity |]. right.
           split; [exact Hok |]. right. exists body. auto.
      * exists [], ("⚠️ Failed to fetch quotes from server: "
                    ++ message e)%string.
        split; [reflexivity | split; [simpl; lia | split; [constructor |]]].
        right. split; [reflexivity |]. exists e. split; [reflexivity |].
        right. exists res. split; [reflexivity |]. right.
        split; [exact Hok |]. left. exact Hj.
    + rewrite bind_throwM.
      exists [], ("⚠️ Failed to fetch quotes from server: "
                  ++ message (Error ("HTTP error! status: "
                                     ++ res_status res)))%string.
      split; [reflexivity | split; [simpl; lia | split; [constructor |]]].
      right. split; [reflexivity |]. eexists. split; [reflexivity |].
      right. exists res. split; [reflexivity |]. left. auto.
  - exists [], ("⚠️ Failed to fetch quotes from server: "
                ++ message e)%string.
    split; [reflexivity | split; [simpl; lia | split; [constructor |]]].
    right. split; [reflexivity |]. exists e. split; [reflexivity |].
    left. reflexivity.
Qed.

Lemma value_eq_null (v : value) : v = JNull \/ v <> JNull.
Proof. destruct v; [left; reflexivity | right; discriminate ..]. Qed.

Lemma post_body_not_null (quoteData : value) :
  quoteData <> JNull -> exists body, Part002.post_body quoteData = Ok body.
Proof.
  intros H. unfold Part002.post_body.
  destruct quoteData; try contradiction; simpl; eexists; reflexivity.
Qed.

(** What [postQuoteToServer] leaves for an argument that is not [null]:
    two notices, and the flag. *)
Lemma post_outcome (quoteData : value) (posted : result response) (s : page) :
  quoteData <> JNull ->
  exists sent note,
    Part002.postQuoteToServer quoteData posted s
    = (set_notifications
         (note :: "Posting quote to server..." :: notifications s) s,
       Ok sent)
    /\ (sent = true <->
        exists res body,
          posted = Ok res /\ res_ok res = true /\ res_json res = Ok body)
    /\ (sent = true -> note = "✅ Quote posted to server successfully!")
    /\ (sent = false ->
        exists e,
          note = ("❌ Failed to post quote to server: " ++ message e)%string).
Proof.
  intros Hq. destruct (post_body_not_null quoteData Hq) as [sentBody Hb].
  unfold Part002.postQuoteToServer, try_catch.
  unfold Part002.showNotification at 1. rewrite bind_modify.
  rewrite bind_lift, Hb, bind_lift.
  destruct posted as [res | e].
  - destruct (res_ok res) eqn:Hok; cbn [negb].
    + unfold ret at 1. unfold bind at 1. rewrite bind_lift.
      destruct (res_json res) as [body | e] eqn:Hj.
      * exists true, "✅ Quote posted to server successfully!".
        split; [reflexivity | split; [| split; [reflexivity | discriminate]]].
        split; [| reflexivity]. intros _. exists res, body. auto.
      * exists false, ("❌ Failed to post quote to server: "
                       ++ message e)%string.
        split; [reflexivity | split; [| split; [discriminate |]]].
        -- split; [discriminate |].
           intros (res' & body & E & _ & Hb'). inversion E; subst.
           rewrite Hj in Hb'. discriminate.
        -- intros _. exists e. reflexivity.
    + rewrite bind_throwM.
      exists false,
        ("❌ Failed to post quote to server: "
         ++ message (Error ("HTTP error! status: " ++ res_status res)))%string.
      split; [reflexivity | split; [| split; [discriminate |]]].
      * split; [discriminate |].
        intros (res' & body & E & Ho & _). inversion E; subst.
        rewrite Hok in Ho. discriminate.
      * intros _. eexists. reflexivity.
  - exists false, ("❌ Failed to post quote to server: " ++ message e)%string.
    split; [reflexivity | split; [| split; [discriminate |]]].
    + split; [discriminate |]. intros (res' & body & E & _). discriminate.
    + intros _. exists e. reflexivity.
Qed.

(** X9 -- [postQuoteToServer] never throws and touches nothing but the
    notification box.  It returns [true], with the success notice, exactly
    when the request succeeded with an [ok] response whose body parses;
    otherwise [false], with a notice naming the error. *)
Theorem post_never_throws (quoteData : value) (posted : result response)
  (s : page) :
  exists sent note,
    Part002.postQuoteToServer quoteData posted s
    = (set_notifications
         (note :: "Posting quote to server..." :: notifications s) s,
       Ok sent)
    /\ (sent = true <->
        quoteData <> JNull
        /\ exists res body,
             posted = Ok res /\ res_ok res = true /\ res_json res = Ok body)
    /\ (sent = true -> note = "✅ Quote posted to server successfully!")
    /\ (sent = false ->
        exists e,
          note = ("❌ Failed to post quote to server: " ++ message e)%string).
Proof.
  destruct (value_eq_null quoteData) as [-> | Hq].
  - exists false, ("❌ Failed to post quote to server: "
                   ++ message TypeError)%string.
    split; [reflexivity | split; [| split; [discriminate |]]].
    + split; [discriminate |]. intros [H _]. contradiction.
    + intros _. exists TypeError. reflexivity.
  - destruct (post_outcome quoteData posted s Hq)
      as (sent & note & E & Hs & Ht & Hf).
    exists sent, note.
    split; [exact E | split; [| split; [exact Ht | exact Hf]]].
    rewrite Hs. tauto.
Qed.

End Requests.

(** ** The category lists of [part_002] *)


(** Either every category of [qs] is a string, or lower-casing the
    categories throws a [TypeError]. *)
Lemma lowered_or_throws (qs : list value) :
  (exists cats, string_categories qs cats)
  \/ map_r (fun q => c <-- get q "category" ;; Part002.lower c) qs
     = Throw TypeError.
Proof.
  induction qs as [| q qs IH].
  - left. exists []. reflexivity.
  - simpl. destruct (get q "category") as [c | e] eqn:Hc.
    + destruct c as [[| b | n | t | l | f] |];
        try (right; reflexivity).
      destruct IH as [[cats H] | H].
      * left. exists (t :: cats). unfold string_categories in *. simpl.
        rewrite Hc, H. reflexivity.
      * right. simpl. rewrite H. reflexivity.
    + right. destruct q; simpl in Hc; try discriminate.
      inversion Hc. reflexivity.
Qed.

Section Part002Lists.
Context {J : JSON}.


(** In [part_002] the categories are read before the lists are emptied:
    when one is not a string the page is left as it was. *)
Lemma part002_populate_throws (s : page) :
  ~ (exists cats, string_categories (quotes s) cats) ->
  Part002.populateCategories s = (s, Throw TypeError).
Proof.
  intros H. unfold Part002.populateCategories.
  rewrite bind_gets, bind_lift.
  destruct (lowered_or_throws (quotes s)) as [Hc | ->]; [contradiction |].
  reflexivity.
Qed.



End Part002Lists.

(** ** Adding a quote in [part_002] *)

Section Part002AddQuote.
Context {J : JSON}.



End Part002AddQuote.



(** ** A random quote in [part_002] *)




Section Part002Random.
Context {J : JSON}.



End Part002Random.


(** ** Import in [part_002]: which elements are added *)

Lemma quote_inj (t c t' c' : string) :
  quote t c = quote t' c' -> t = t' /\ c = c'.
Proof. intros H. inversion H. auto. Qed.

Lemma pair_test_quotes (t c t' c' : string) :
  (a <-- get (quote t' c') "text" ;;
   b <-- get (quote t c) "text" ;;
   if strict_eq a b then
     c0 <-- get (quote t' c') "category" ;;
     d <-- get (quote t c) "category" ;;
     Ok (strict_eq c0 d)
   else Ok false)
  = Ok (String.eqb t' t && String.eqb c' c).
Proof. cbn. destruct (String.eqb t' t); reflexivity. Qed.

(** On a store of quotes with string texts and categories, the test of the
    import finds an element exactly when the store holds it. *)
Lemma pair_exists_quotes (qs : list value) (t c : string) :
  Forall string_quote qs ->
  exists found,
    Part002.pair_exists qs (quote t c) = Ok found
    /\ (found = true <-> In (quote t c) qs).
Proof.
  induction 1 as [| x qs (t' & c' & ->) _ (found & E & Hf)].
  - exists false. split; [reflexivity |]. split; [discriminate | contradiction].
  - unfold Part002.pair_exists in *. cbn [some]. rewrite pair_test_quotes.
    destruct (String.eqb t' t && String.eqb c' c) eqn:B.
    + exists true. split; [reflexivity |]. split; [| reflexivity].
      intros _. left. apply andb_true_iff in B. destruct B as [B1 B2].
      apply String.eqb_eq in B1, B2. subst. reflexivity.
    + exists found. split; [exact E |]. rewrite Hf.
      split; [intros H; right; exact H |].
      intros [H | H]; [| exact H].
      apply quote_inj in H. destruct H as [-> ->].
      rewrite !String.eqb_refl in B. discriminate.
Qed.



Section Part002ImportLoop.
Context {J : JSON}.




End Part002ImportLoop.

Section Part002ImportFile.
Context {J : JSON}.

(** The handler after a loop that added nothing. *)
Lemma part002_import_none (s s1 : page) (content : json_text)
  (l : list value) :
  JSON_parse content = Ok (JArr l) ->
  Part002.import_loop l 0 s = (s1, Ok 0%nat) ->
  Part002.importFromJsonFile (Some content) s
  = (set_importFile ""
       (set_notifications
          ("ℹ️ No new quotes were imported (either no new quotes or invalid format)."
             :: notifications s1) s1),
     Ok tt).
Proof.
  intros Hp E. unfold Part002.importFromJsonFile, try_catch.
  rewrite bind_lift, Hp. unfold bind at 1. rewrite E. reflexivity.
Qed.




End Part002ImportFile.


Section Part002ImportEdges.
Context {J : JSON}.








End Part002ImportEdges.



(** ** Restoring the filter: what is selected and persisted *)

Lemma index_of_carried (v : string) (l : list option_el) :
  match index_of v l with
  | Some i =>
      existsb (fun o => String.eqb (opt_value o) v) l = true
      /\ exists o, nth_error l i = Some o /\ opt_value o = v
  | None => existsb (fun o => String.eqb (opt_value o) v) l = false
  end.
Proof.
  induction l as [| o l IH]; simpl; [reflexivity |].
  destruct (String.eqb (opt_value o) v) eqn:E.
  - split; [reflexivity |]. exists o. split; [reflexivity |].
    apply String.eqb_eq. exact E.
  - destruct (index_of v l) as [i |]; simpl; exact IH.
Qed.

Lemma select_set_value_reads (v : string) (sel : select) :
  select_value (select_set_value v sel)
  = if existsb (fun o => String.eqb (opt_value o) v) (options sel)
    then v else "".
Proof.
  unfold select_value, select_set_value. cbn [options selectedIndex].
  pose proof (index_of_carried v (options sel)) as H.
  destruct (index_of v (options sel)) as [i |].
  - destruct H as [-> (o & -> & Ho)]. exact Ho.
  - rewrite H. reflexivity.
Qed.

Section RestoreSelection.
Context {J : JSON}.

(** [filterQuotes] persists the value of the filter list before it reads
    the store: the selection is persisted even when listing throws. *)
Lemma script_filterQuotes_persists (s : page) :
  ls_selectedCategory (run ScriptJs.filterQuotes s)
  = Some (select_value (categoryFilter s)).
Proof.
  unfold run, ScriptJs.filterQuotes.
  rewrite bind_gets, bind_modify, bind_gets, bind_lift.
  destruct (filteredQuotes _ _) as [filtered |]; [| reflexivity].
  destruct (List.length filtered =? 0)%nat; [reflexivity |].
  rewrite bind_lift. destruct (map_r shown filtered); reflexivity.
Qed.

Lemma part002_filterQuotes_persists (s : page) :
  ls_selectedCategory (run Part002.filterQuotes s)
  = Some (select_value (categoryFilter s)).
Proof.
  unfold run, Part002.filterQuotes.
  rewrite bind_gets, bind_modify, bind_gets, bind_lift.
  destruct (filteredQuotes _ _) as [filtered |]; [| reflexivity].
  destruct (List.length filtered =? 0)%nat; [reflexivity |].
  rewrite bind_lift. destruct (map_r shown filtered); reflexivity.
Qed.

(** X16 -- [restoreFilter] on any page, [saved] being the persisted
    selection (["all"] when there is none or it is empty).  When an option
    of the filter list carries [saved], both scripts select it.  When none
    does, [script.js] leaves the list without selection, its value reading
    as the empty string, while [part_002] leaves the list as it was.  In
    every case the options are untouched and the value the list ends up
    showing is what is persisted as the selection, also when listing the
    quotes throws afterwards. *)
Theorem restoreFilter_selects_saved (s : page) :
  let saved := saved_or_all (ls_selectedCategory s) in
  let carried :=
    existsb (fun o => String.eqb (opt_value o) saved)
            (options (categoryFilter s)) in
  let script := run ScriptJs.restoreFilter s in
  let part002 := run Part002.restoreFilter s in
  select_value (categoryFilter script) = (if carried then saved else "")
  /\ select_value (categoryFilter part002)
     = (if carried then saved else select_value (categoryFilter s))
  /\ options (categoryFilter script) = options (categoryFilter s)
  /\ options (categoryFilter part002) = options (categoryFilter s)
  /\ ls_selectedCategory script = Some (select_value (categoryFilter script))
  /\ ls_selectedCategory part002
     = Some (select_value (categoryFilter part002)).
Proof.
  intros saved carried script part002.
  assert (Es : script
               = run ScriptJs.filterQuotes
                   (set_categoryFilter
                      (select_set_value saved (categoryFilter s)) s))
    by reflexivity.
  assert (Ep : part002
               = run Part002.filterQuotes
                   (if carried
                    then set_categoryFilter
                           (select_set_value saved (categoryFilter s)) s
                    else s)).
  { unfold part002, run, Part002.restoreFilter.
    rewrite !bind_gets. fold saved. fold carried.
    destruct carried; reflexivity. }
  assert (Ks : categoryFilter script
               = select_set_value saved (categoryFilter s)).
  { rewrite Es. unfold run. rewrite (script_filterQuotes_keeps_filter _).
    reflexivity. }
  assert (Kp : categoryFilter part002
               = if carried then select_set_value saved (categoryFilter s)
                 else categoryFilter s).
  { rewrite Ep. unfold run. rewrite (part002_filterQuotes_keeps_filter _).
    destruct carried; reflexivity. }
  assert (Vs : select_value (categoryFilter script)
               = if carried then saved else "").
  { rewrite Ks. apply select_set_value_reads. }
  assert (Vp : select_value (categoryFilter part002)
               = if carried then saved else select_value (categoryFilter s)).
  { rewrite Kp. pose proof (select_set_value_reads saved (categoryFilter s)) as R.
    fold carried in R. destruct carried; [exact R | reflexivity]. }
  split; [exact Vs | split; [exact Vp | split; [| split; [| split]]]].
  - rewrite Ks. reflexivity.
  - rewrite Kp. destruct carried; reflexivity.
  - rewrite Ks. rewrite Es, script_filterQuotes_persists. reflexivity.
  - rewrite Kp. rewrite Ep, part002_filterQuotes_persists.
    destruct carried; reflexivity.
Qed.

End RestoreSelection.

(** ** The options of the category lists *)









Section CategoryOptions.
Context {J : JSON}.


End CategoryOptions.


(** ** Synchronisation in [part_002]: failures *)

Lemma part002_merge_into_nothing (parsed : value) :
  exists l, Part002.merge_into parsed [] = Ok (l, false).
Proof.
  unfold Part002.merge_into.
  destruct (if truthy (Some parsed) then parsed else JArr []);
    eexists; reflexivity.
Qed.

Section Part002SyncFailures.
Context {J : JSON}.

Lemma part002_fetch_fails (fetched : result response) (e : exn) (s : page) :
  fetch_fails fetched e ->
  Part002.fetchQuotesFromServer fetched s
  = (set_notifications
       (("⚠️ Failed to fetch quotes from server: " ++ message e)%string
          :: "Fetching quotes from server..." :: notifications s) s,
     Ok []).
Proof.
  unfold Part002.fetchQuotesFromServer, try_catch.
  unfold Part002.showNotification at 1. rewrite bind_modify, bind_lift.
  intros [-> | (res & -> & [[Hok ->] | [Hok [Hj | (body & Hj & Hm)]]])];
    [reflexivity | rewrite Hok; reflexivity | |];
    rewrite Hok; cbn [negb]; unfold ret at 1; unfold bind at 1;
    rewrite bind_lift, Hj; [reflexivity |].
  rewrite bind_lift, Hm. reflexivity.
Qed.

(** X18 -- [syncWithServer] of [part_002] when the request fails and the
    persisted copy parses: the run returns normally, leaves everything but
    the notification box alone, and its last notice is the one of a run
    that found nothing new ("🔄 No new quotes found from server. Local
    quotes are up to date."), shown over the notice of the failure. *)
Theorem part002_sync_failure_reads_as_no_news (s : page)
  (fetched : result response) (e : exn) (parsed : value) :
  fetch_fails fetched e ->
  parse_item (ls_quotes s) = Ok parsed ->
  Part002.syncWithServer fetched s
  = (set_notifications
       ("🔄 No new quotes found from server. Local quotes are up to date."
          :: ("⚠️ Failed to fetch quotes from server: " ++ message e)%string
          :: "Fetching quotes from server..."
          :: "Syncing with server..."
          :: notifications s) s,
     Ok tt).
Proof.
  intros Hf Hp. unfold Part002.syncWithServer.
  unfold Part002.showNotification at 1. rewrite bind_modify.
  unfold bind at 1. rewrite (part002_fetch_fails fetched e _ Hf).
  rewrite bind_gets. cbn [ls_quotes set_notifications].
  rewrite bind_lift, Hp, bind_lift.
  destruct (part002_merge_into_nothing parsed) as (l & ->).
  reflexivity.
Qed.

(** X19 -- [syncWithServer] of [part_002] when the persisted copy of the
    quotes does not parse: whatever the server answered, the run throws
    the parse error, which nothing catches, after the notices of the
    fetch; the store is left as it was. *)
Theorem part002_sync_throws_on_bad_copy (s : page)
  (fetched : result response) (e : exn) :
  parse_item (ls_quotes s) = Throw e ->
  snd (Part002.syncWithServer fetched s) = Throw e
  /\ store (run (Part002.syncWithServer fetched) s) = store s.
Proof.
  intros Hp.
  destruct (part002_fetch fetched
              (set_notifications
                 ("Syncing with server..." :: notifications s) s))
    as (s1 & E & Hs).
  assert (E1 : Part002.syncWithServer fetched s = (s1, Throw e)).
  { unfold Part002.syncWithServer.
    unfold Part002.showNotification at 1. rewrite bind_modify.
    unfold bind at 1. rewrite E. rewrite bind_gets.
    pose proof Hs as Hs'. apply store_eq in Hs'. destruct Hs' as [_ Hl].
    cbn in Hl. rewrite Hl, bind_lift, Hp. reflexivity. }
  unfold run. rewrite E1. split; [reflexivity | exact Hs].
Qed.

End Part002SyncFailures.

Lemma part002_sync_failure_reads_as_no_news_witness :
  Part002.syncWithServer (Throw NetworkError)
    (page_of ScriptJs.defaults None None "" "")
  = (set_notifications
       ["🔄 No new quotes found from server. Local quotes are up to date.";
        "⚠️ Failed to fetch quotes from server: NetworkError";
        "Fetching quotes from server...";
        "Syncing with server..."]
       (page_of ScriptJs.defaults None None "" ""),
     Ok tt).
Proof.
  exact (part002_sync_failure_reads_as_no_news
           (page_of ScriptJs.defaults None None "" "")
           (Throw NetworkError) NetworkError JNull
           (or_introl eq_refl) eq_refl).
Defined.

Lemma part002_sync_throws_on_bad_copy_witness :
  snd (Part002.syncWithServer (served (JArr [post (JStr "a")]))
         (page_of ScriptJs.defaults (Some None) None "" ""))
  = Throw SyntaxError.
Proof.
  exact (proj1 (part002_sync_throws_on_bad_copy
                  (page_of ScriptJs.defaults (Some None) None "" "")
                  (served (JArr [post (JStr "a")])) SyntaxError eq_refl)).
Defined.

(** ** Reloading the page *)

Section Reload.
Context {J : JSON}.


End Reload.

(** ** Importing a page's own export ([part_002]) *)

Section OwnExport.
Context {J : JSON}.

Lemma import_loop_known (l : list value) (n : nat) (s : page) :
  Forall string_quote (quotes s) ->
  (forall q, In q l -> In q (quotes s)) ->
  Part002.import_loop l n s = (s, Ok n).
Proof.
  intros Hs. induction l as [| e l IH]; intros Hl; [reflexivity |].
  assert (He : In e (quotes s)) by (apply Hl; left; reflexivity).
  pose proof Hs as Hs'. rewrite Forall_forall in Hs'.
  destruct (Hs' e He) as (t & c & ->).
  destruct (pair_exists_quotes (quotes s) t c Hs) as (found & E & Hf).
  apply Hf in He. subst found.
  cbn [Part002.import_loop]. unfold bind.
  rewrite (part002_import_step_skips _ n s (Some (JStr t)) (Some (JStr c)) true);
    auto using get_mk_quote_text, get_mk_quote_category.
  apply IH. intros q Hq. apply Hl. right. exact Hq.
Qed.

(** X21 -- In [part_002], on a store of quotes with string texts and
    categories: [exportQuotes] changes nothing but the notification box,
    and importing the file it wrote into the same page adds nothing: the
    store in memory and its persisted copy stay as they are, and the user
    reads that no new quotes were imported. *)
Theorem part002_own_export_adds_nothing (s : page) :
  Forall string_quote (quotes s) ->
  exists file,
    Part002.exportQuotes s
    = (set_notifications
         ("✅ Quotes exported successfully!" :: notifications s) s,
       Ok file)
    /\ Part002.importFromJsonFile (Some file)
         (run Part002.exportQuotes s)
       = (set_importFile ""
            (set_notifications
               ("ℹ️ No new quotes were imported (either no new quotes or invalid format)."
                  :: "✅ Quotes exported successfully!" :: notifications s) s),
          Ok tt).
Proof.
  intros Hs. exists (JSON_stringify_pretty (JArr (quotes s))).
  split; [reflexivity |].
  rewrite (part002_import_none (run Part002.exportQuotes s)
             (run Part002.exportQuotes s) _ (quotes s));
    [reflexivity | apply JSON_parse_stringify_pretty |].
  apply import_loop_known; [exact Hs | auto].
Qed.

End OwnExport.

Lemma part002_own_export_adds_nothing_witness :
  exists file,
    Part002.importFromJsonFile (Some file)
      (run Part002.exportQuotes
           (page_of [quote "a" "X"; quote "a" "X"] None None "" ""))
    = (set_importFile ""
         (set_notifications
            ["ℹ️ No new quotes were imported (either no new quotes or invalid format).";
             "✅ Quotes exported successfully!"]
            (page_of [quote "a" "X"; quote "a" "X"] None None "" "")),
       Ok tt).
Proof.
  destruct (part002_own_export_adds_nothing
              (page_of [quote "a" "X"; quote "a" "X"] None None "" "")
              ltac:(repeat constructor; eexists _, _; reflexivity))
    as (file & _ & E).
  exists file. exact E.
Defined.

(** ** Loading the page ([part_002]) *)

Section Part002Loaded.
Context {J : JSON}.



End Part002Loaded.


(** ** The second script of [script.js] *)








(** ** Categories that are not strings *)

Section NonStringCategories.
Context {J : JSON}.

(** X25 -- [populateCategories] on a store that holds a [null] or a quote
    whose category is not a string (an imported object without category,
    say): both scripts throw a [TypeError] and leave the store alone.
    [part_002] reads and lower-cases every category before it touches the
    lists, so the page is exactly as it was; [script.js] throws from
    inside the loop that fills the lists. *)
Theorem populateCategories_needs_strings (s : page) :
  ~ (exists cats, string_categories (quotes s) cats) ->
  snd (ScriptJs.populateCategories s) = Throw TypeError
  /\ store (run ScriptJs.populateCategories s) = store s
  /\ Part002.populateCategories s = (s, Throw TypeError).
Proof.
  intros H. split; [| split].
  - exact (script_populate_throws s H).
  - exact (script_populateCategories_keeps s).
  - exact (part002_populate_throws s H).
Qed.

End NonStringCategories.

Lemma populateCategories_needs_strings_witness :
  Part002.populateCategories
    (page_of [quote "a" "x"; JObj [("text", JStr "b")]] None None "" "")
  = (page_of [quote "a" "x"; JObj [("text", JStr "b")]] None None "" "",
     Throw TypeError).
Proof.
  apply (populateCategories_needs_strings
           (page_of [quote "a" "x"; JObj [("text", JStr "b")]] None None "" "")).
  intros [cats H]. unfold string_categories in H. simpl in H.
  destruct cats as [| c1 [| c2 cats]]; discriminate.
Defined.
